(** * wp1121 / hw3: the tweet-detail page and the tweet-creation endpoint

    A shallow embedding of

    - [src/hw3/src/app/tweet/[tweet_id]/page.tsx]  (server component [TweetPage])
    - [src/hw3/src/app/api/tweets/route.ts]        (route handler [POST])

    The three tables are lists of rows in storage order, the SQL that the
    query builder composes is evaluated by list functions (nested-loop joins,
    a scan that groups, a stable sort), and the control effects of the two
    handlers (the data-store operations they issue, [redirect], a thrown
    [TypeError], a caught exception) are threaded explicitly.

    What the handlers take from their libraries is modelled after the
    libraries: [parseInt] after ECMAScript, the schema combinators after
    zod 3 ([z.number()] admits every number but NaN, [z.object] ignores
    unknown keys), the joins after SQL (an unmatched left join pads with
    NULL, and the query builder hands NULL on as [null] without applying
    [mapWith]).  A page request reads the tables as they are; the store
    behind [POST] is a parameter. *)

From Stdlib Require Import ZArith QArith List String Ascii Bool Lia.
From Stdlib Require Import Permutation Sorted.
Import ListNotations.

Local Open Scope string_scope.
Local Open Scope list_scope.
Local Open Scope Z_scope.

Set Warnings "-register-all".

(* ================================================================== *)
(** ** JavaScript values *)
(* ================================================================== *)

Module JS.

(** A JavaScript number: [NaN], the two infinities, or a finite double,
    carried by the rational it denotes.  Negative zero is not told apart
    from zero (neither handler can observe the difference). *)
Inductive number : Type :=
| NaN
| Infinity (negative : bool)
| Fin (q : Q).

Definition isNaN (n : number) : bool :=
  match n with NaN => true | _ => false end.

Definition ofZ (z : Z) : number := Fin (inject_Z z).

(** [n > 0], as zod's [.positive()] tests it. *)
Definition positive (n : number) : bool :=
  match n with
  | NaN => false
  | Infinity negative => negb negative
  | Fin q => negb (Qle_bool q 0)
  end.

(** The Number value of a mathematical integer: exact below 2^53, otherwise
    rounded to 53 significant bits (nearest, ties to even), overflowing to
    an infinity from 2^1024 on. *)
Definition roundInt (z : Z) : number :=
  let a := Z.abs z in
  if a <? 2 ^ 53 then ofZ z
  else
    let e := Z.log2 a - 52 in
    let m := Z.shiftr a e in
    let r := a - Z.shiftl m e in
    let half := 2 ^ (e - 1) in
    let m' := if (half <? r) || ((r =? half) && Z.odd m) then m + 1 else m in
    let v := Z.shiftl m' e in
    if 2 ^ 1024 <=? v then Infinity (z <? 0) else ofZ (Z.sgn z * v).

(** Strings are sequences of code units; the embedding carries the code
    units below 256, one [ascii] each, so [String.length] is [.length]. *)

(** White space that [parseInt] skips (the code units of StrWhiteSpaceChar
    below 256: TAB, LF, VT, FF, CR, SP, NBSP). *)
Definition isStrWhiteSpaceChar (c : ascii) : bool :=
  let n := N_of_ascii c in
  ((n =? 9) || (n =? 10) || (n =? 11) || (n =? 12) || (n =? 13)
   || (n =? 32) || (n =? 160))%N.

Fixpoint trimStart (s : string) : string :=
  match s with
  | String c s' => if isStrWhiteSpaceChar c then trimStart s' else s
  | EmptyString => EmptyString
  end.

(** Value of a digit character: 0-9, then a-z and A-Z for 10..35. *)
Definition digitValue (c : ascii) : option Z :=
  let n := Z.of_N (N_of_ascii c) in
  if (48 <=? n) && (n <=? 57) then Some (n - 48)
  else if (97 <=? n) && (n <=? 122) then Some (n - 87)
  else if (65 <=? n) && (n <=? 90) then Some (n - 55)
  else None.

Definition radixDigit (R : Z) (c : ascii) : option Z :=
  match digitValue c with
  | Some d => if d <? R then Some d else None
  | None => None
  end.

(** The digits of the longest prefix of [s] made of radix-[R] digits. *)
Fixpoint digitsPrefix (R : Z) (s : string) : list Z :=
  match s with
  | String c s' =>
      match radixDigit R c with
      | Some d => d :: digitsPrefix R s'
      | None => []
      end
  | EmptyString => []
  end.

Definition mathInt (R : Z) (ds : list Z) : Z :=
  fold_left (fun acc d => acc * R + d) ds 0.

(** The first code unit of [s] is [c]. *)
Definition startsWith (c : ascii) (s : string) : bool :=
  match s with
  | String c' _ => Ascii.eqb c' c
  | EmptyString => false
  end.

(** The substring of [s] from index 1, from index 2. *)
Definition from1 (s : string) : string :=
  match s with
  | String _ rest => rest
  | EmptyString => EmptyString
  end.

Definition from2 (s : string) : string := from1 (from1 s).

(** The first two code units of [s] are [0x] or [0X]. *)
Definition hasHexPrefix (s : string) : bool :=
  startsWith "0" s && (startsWith "x" (from1 s) || startsWith "X" (from1 s)).

(** [parseInt(string)] with no radix argument (ECMAScript, parseInt steps
    2-16): trim leading white space, take a sign, switch to radix 16 on a
    [0x]/[0X] prefix, read the longest run of digits, [NaN] when it is
    empty. *)
Definition parseInt (string : string) : number :=
  let S := trimStart string in
  let sign := if startsWith "-" S then -1 else 1 in
  let S := if startsWith "+" S || startsWith "-" S then from1 S else S in
  let R := if hasHexPrefix S then 16 else 10 in
  let S := if hasHexPrefix S then from2 S else S in
  match digitsPrefix R S with
  | [] => NaN
  | Z => roundInt (sign * mathInt R Z)
  end.

(** Truthiness of a string that may be [undefined]. *)
Definition truthy_string (s : option string) : bool :=
  match s with
  | Some (String _ _) => true
  | _ => false
  end.

End JS.

(* ================================================================== *)
(** ** The relational operators the query builder composes *)
(* ================================================================== *)

Module Sql.

Section Operators.
Context {A B : Type}.

(** [a INNER JOIN b ON on]: every pair of rows that satisfies [on]. *)
Definition inner_join (on : A -> B -> bool) (l : list A) (r : list B)
  : list (A * B) :=
  flat_map (fun a => map (pair a) (filter (on a) r)) l.

(** The rows a left row contributes to a left join: one per match, or
    one padded with NULL when nothing matches. *)
Definition pad_left (a : A) (matches : list B) : list (A * option B) :=
  match matches with
  | [] => [(a, None)]
  | _ => map (fun b => (a, Some b)) matches
  end.

(** [a LEFT JOIN b ON on]. *)
Definition left_join (on : A -> B -> bool) (l : list A) (r : list B)
  : list (A * option B) :=
  flat_map (fun a => pad_left a (filter (on a) r)) l.

(** [ORDER BY key ASC], as a stable insertion sort: rows with equal keys
    keep the order the scan produced them in.  The query names no second
    key, so a store may return such rows in any order; the theorems
    stated for the page's output do not depend on that order (the lemmas
    that name [order_by_asc] are about this sort). *)
Fixpoint insert_asc (key : A -> Z) (x : A) (sorted : list A) : list A :=
  match sorted with
  | [] => [x]
  | y :: rest =>
      if key x <=? key y then x :: sorted
      else y :: insert_asc key x rest
  end.

Definition order_by_asc (key : A -> Z) (l : list A) : list A :=
  fold_right (insert_asc key) [] l.
End Operators.

(** [SELECT k, count( * ) ... GROUP BY k] as a scan that keeps one counter
    per key met so far. *)
Fixpoint bump (k : Z) (groups : list (Z * Z)) : list (Z * Z) :=
  match groups with
  | [] => [(k, 1)]
  | (k', c) :: rest =>
      if k' =? k then (k', c + 1) :: rest else (k', c) :: bump k rest
  end.

Definition group_count (keys : list Z) : list (Z * Z) :=
  fold_left (fun groups k => bump k groups) keys [].

(** [eq(column, value)] for an integer column and a JavaScript number: the
    column value equals the number.  An infinity or a fraction equals no
    column value.  A store that refuses a parameter with an error (an
    infinity, a fraction, an integer beyond the range of the column) is not
    modelled: the page's reads are taken to succeed, and a number is
    compared even where such a store would throw from the query. *)
Definition eq_num (column : Z) (value : JS.number) : bool :=
  match value with
  | JS.Fin q => Qeq_bool (inject_Z column) q
  | _ => false
  end.

(** The same on a nullable column: NULL equals nothing. *)
Definition eq_num_nullable (column : option Z) (value : JS.number) : bool :=
  match column with
  | Some c => eq_num c value
  | None => false
  end.

End Sql.

(* ================================================================== *)
(** ** The three tables ([@/db/schema], columns as the handlers use them) *)
(* ================================================================== *)

Record User := {
  users_id : Z;
  users_displayName : string
}.

Record Tweet := {
  tweets_id : Z;
  tweets_userId : Z;
  tweets_content : string;
  tweets_timestart : option Z;
  tweets_timeend : option Z;
  tweets_replyToTweetId : option Z;
  tweets_createdAt : Z
}.

Record Like := {
  likes_id : Z;
  likes_tweetId : Z;
  likes_userId : Z
}.

Record Database := {
  usersTable : list User;
  tweetsTable : list Tweet;
  likesTable : list Like
}.

(* ================================================================== *)
(** ** [app/tweet/[tweet_id]/page.tsx] *)
(* ================================================================== *)

Module Page.

(** The queries the page sends, in the order it awaits them. *)
Inductive Query : Type :=
| SelectTweetData (tweet_id_num : JS.number)
| SelectLikes (tweet_id_num : JS.number)
| SelectLiked (tweet_id_num : JS.number) (userid : Z)
| SelectUser (id : Z)
| SelectReplies (tweet_id_num : JS.number) (userid : Z).

Record Location := {
  pathname : string;
  search : list (string * string)   (* the URLSearchParams, before encoding *)
}.

(** How a render can end without a view: [redirect()] throws its own
    control-flow error, and reading a property of [undefined] throws a
    TypeError that nothing catches. *)
Inductive Exit : Type :=
| Redirected (to : Location)
| TypeError.

(** A computation: the queries issued so far, and either an exit or a
    value. *)
Definition M (A : Type) : Type := list Query * (Exit + A).

Definition ret {A} (a : A) : M A := ([], inr a).

Definition bind {A B} (m : M A) (f : A -> M B) : M B :=
  match m with
  | (log, inl e) => (log, inl e)
  | (log, inr a) => let (log', r) := f a in (log ++ log', r)
  end.

Notation "x <- m ;; k" := (bind m (fun x => k))
  (at level 61, m at next level, right associativity).
Notation "m ;;; k" := (bind m (fun _ => k))
  (at level 61, right associativity).

Definition redirect {A} (to : Location) : M A := ([], inl (Redirected to)).

(** [await db.select()...execute()]: the query goes out, its rows come
    back. *)
Definition execute {A} (q : Query) (rows : list A) : M (list A) :=
  ([q], inr rows).

(** [const [x] = rows]: the first row, or [undefined]. *)
Definition first {A} (rows : list A) : option A := hd_error rows.

(** [x.field] where [x] may be [undefined]. *)
Definition deref {A} (x : option A) : M A :=
  match x with
  | Some a => ret a
  | None => ([], inl TypeError)
  end.

Definition is_undefined {A} (x : option A) : bool :=
  match x with Some _ => false | None => true end.

(** The view model. *)
Record TweetView := {
  tweet_id : Z;
  tweet_content : string;
  tweet_timestart : option Z;
  tweet_timeend : option Z;
  tweet_username : string;
  tweet_userid : Z;
  tweet_likes : Z;
  tweet_createdAt : Z;
  tweet_liked : bool
}.

(** A row of [replies]; [likes] and [liked] come from left joins and are
    NULL where the join found nothing. *)
Record Reply := {
  reply_id : Z;
  reply_content : string;
  reply_replyToTweetId : option Z;
  reply_username : string;
  reply_userid : Z;
  reply_likes : option Z;
  reply_createdAt : Z;
  reply_liked : option bool
}.

Record View := {
  tweet : TweetView;
  replies : list Reply
}.

(** [SELECT ... FROM tweets WHERE id = tweet_id_num] *)
Definition selectTweetData (db : Database) (tweet_id_num : JS.number)
  : list Tweet :=
  filter (fun t => Sql.eq_num (tweets_id t) tweet_id_num) (tweetsTable db).

(** [SELECT id FROM likes WHERE tweet_id = tweet_id_num] *)
Definition selectLikes (db : Database) (tweet_id_num : JS.number) : list Z :=
  map likes_id
    (filter (fun l => Sql.eq_num (likes_tweetId l) tweet_id_num)
       (likesTable db)).

(** [SELECT id FROM likes WHERE tweet_id = tweet_id_num AND user_id = userid] *)
Definition selectLiked (db : Database) (tweet_id_num : JS.number) (userid : Z)
  : list Z :=
  map likes_id
    (filter (fun l => Sql.eq_num (likes_tweetId l) tweet_id_num
                      && (likes_userId l =? userid))
       (likesTable db)).

(** [SELECT id, display_name FROM users WHERE id = ...] *)
Definition selectUser (db : Database) (id : Z) : list User :=
  filter (fun u => users_id u =? id) (usersTable db).

(** [WITH likes_count AS (SELECT tweet_id, count( * ) AS likes FROM likes
    GROUP BY tweet_id)]: rows [(tweetId, likes)]. *)
Definition likesSubquery (db : Database) : list (Z * Z) :=
  Sql.group_count (map likes_tweetId (likesTable db)).

(** [WITH liked AS (SELECT tweet_id, 1 AS liked FROM likes WHERE user_id =
    userid)]: rows [(tweetId, liked)], the constant mapped with [Boolean]. *)
Definition likedSubquery (db : Database) (userid : Z) : list (Z * bool) :=
  map (fun l => (likes_tweetId l, true))
    (filter (fun l => likes_userId l =? userid) (likesTable db)).

(** A row of the four-way join. *)
Definition Joined : Type :=
  Tweet * User * option (Z * Z) * option (Z * bool).

Definition joined_tweet (r : Joined) : Tweet := fst (fst (fst r)).
Definition joined_user (r : Joined) : User := snd (fst (fst r)).
Definition joined_likes (r : Joined) : option (Z * Z) := snd (fst r).
Definition joined_liked (r : Joined) : option (Z * bool) := snd r.

Definition select_reply (r : Joined) : Reply := {|
  reply_id := tweets_id (joined_tweet r);
  reply_content := tweets_content (joined_tweet r);
  reply_replyToTweetId := tweets_replyToTweetId (joined_tweet r);
  reply_username := users_displayName (joined_user r);
  reply_userid := users_id (joined_user r);
  reply_likes := option_map snd (joined_likes r);
  reply_createdAt := tweets_createdAt (joined_tweet r);
  reply_liked := option_map snd (joined_liked r)
|}.

(** The [replies] query: tweets joined with their author, left-joined with
    both subqueries, restricted to the replies of [tweet_id_num], oldest
    first. *)
Definition selectReplies (db : Database) (tweet_id_num : JS.number)
  (userid : Z) : list Reply :=
  let joined :=
    Sql.left_join (fun r liked => tweets_id (fst (fst r)) =? fst liked)
      (Sql.left_join (fun r likes => tweets_id (fst r) =? fst likes)
         (Sql.inner_join (fun t u => tweets_userId t =? users_id u)
            (tweetsTable db) (usersTable db))
         (likesSubquery db))
      (likedSubquery db userid) in
  let selected :=
    filter (fun r => Sql.eq_num_nullable
                       (tweets_replyToTweetId (joined_tweet r)) tweet_id_num)
      joined in
  map select_reply
    (Sql.order_by_asc (fun r => tweets_createdAt (joined_tweet r)) selected).

(** [TweetPage({ params: { tweet_id }, searchParams: { username, userid } })]
    for a request that carries [userid]: the viewer identifier, which the
    store compares with [likes.user_id].  [username] is [None] when the
    query string has none.  The JSX the function returns is the view
    model: the [tweet] object and the [replies] rows it is rendered from. *)
Definition TweetPage (db : Database) (tweet_id : string)
  (username : option string) (userid : Z) : M View :=
  let errorRedirect := fun _ : unit =>
    let params :=
      match username with
      | Some u => if JS.truthy_string username then [("username", u)] else []
      | None => []
      end in
    redirect (A := unit) {| pathname := "/"; search := params |} in
  let tweet_id_num := JS.parseInt tweet_id in
  (if JS.isNaN tweet_id_num then errorRedirect tt else ret tt) ;;;
  rows <- execute (SelectTweetData tweet_id_num)
            (selectTweetData db tweet_id_num) ;;
  let tweetData := first rows in
  (if is_undefined tweetData then errorRedirect tt else ret tt) ;;;
  likes <- execute (SelectLikes tweet_id_num) (selectLikes db tweet_id_num) ;;
  let numLikes := Z.of_nat (List.length likes) in
  rows <- execute (SelectLiked tweet_id_num userid)
            (selectLiked db tweet_id_num userid) ;;
  let liked := first rows in
  tweetData <- deref tweetData ;;
  rows <- execute (SelectUser (tweets_userId tweetData))
            (selectUser db (tweets_userId tweetData)) ;;
  let user := first rows in
  user <- deref user ;;
  let tweet := {|
    tweet_id := tweets_id tweetData;
    tweet_content := tweets_content tweetData;
    tweet_timestart := tweets_timestart tweetData;
    tweet_timeend := tweets_timeend tweetData;
    tweet_username := users_displayName user;
    tweet_userid := users_id user;
    tweet_likes := numLikes;
    tweet_createdAt := tweets_createdAt tweetData;
    tweet_liked := negb (is_undefined liked)
  |} in
  replies <- execute (SelectReplies tweet_id_num userid)
               (selectReplies db tweet_id_num userid) ;;
  ret {| tweet := tweet; replies := replies |}.

End Page.

(* ================================================================== *)
(** ** [app/api/tweets/route.ts] *)
(* ================================================================== *)

(** What [request.json()] resolves to. *)
Module Json.

Inductive value : Type :=
| Null
| Bool (b : bool)
| Number (n : JS.number)
| Str (s : string)
| Array (items : list value)
| Object (properties : list (string * value)).

Fixpoint assoc (key : string) (properties : list (string * value))
  : option value :=
  match properties with
  | [] => None
  | (k, v) :: rest => if String.eqb k key then Some v else assoc key rest
  end.

(** [data[key]]: the property, or [undefined] ([None]).  An object is the
    list of its properties; the first binding of a key is the property. *)
Definition get (data : value) (key : string) : option value :=
  match data with
  | Object properties => assoc key properties
  | _ => None
  end.

End Json.

(** The zod combinators the schema is built from.  A schema is the test
    [parse] applies to a value that may be [undefined]. *)
Module z.

Definition schema : Type := option Json.value -> bool.

(** [z.number()]: a number that is not NaN. *)
Definition number : schema := fun v =>
  match v with
  | Some (Json.Number n) => negb (JS.isNaN n)
  | _ => false
  end.

(** [.positive()] on a number schema. *)
Definition positive (s : schema) : schema := fun v =>
  s v && match v with
         | Some (Json.Number n) => JS.positive n
         | _ => false
         end.

(** [z.string()] *)
Definition string : schema := fun v =>
  match v with
  | Some (Json.Str _) => true
  | _ => false
  end.

(** [.min(k)] and [.max(k)] on a string schema compare [.length]. *)
Definition min (k : Z) (s : schema) : schema := fun v =>
  s v && match v with
         | Some (Json.Str x) => k <=? Z.of_nat (String.length x)
         | _ => false
         end.

Definition max (k : Z) (s : schema) : schema := fun v =>
  s v && match v with
         | Some (Json.Str x) => Z.of_nat (String.length x) <=? k
         | _ => false
         end.

(** [.optional()]: [undefined] passes. *)
Definition optional (s : schema) : schema := fun v =>
  match v with
  | None => true
  | Some _ => s v
  end.

(** [z.object(shape)]: an object each of whose shape keys passes its
    schema; keys outside the shape are ignored. *)
Definition object (shape : list (String.string * schema)) : schema := fun v =>
  match v with
  | Some (Json.Object properties) =>
      forallb (fun field => snd field (Json.assoc (fst field) properties))
        shape
  | _ => false
  end.

(** [schema.parse(data)] returns normally ([true]) or throws ([false]). *)
Definition parse (s : schema) (data : Json.value) : bool := s (Some data).

End z.

Module Route.

Definition postTweetRequestSchema : z.schema :=
  z.object [
    ("userId", z.number);
    ("content", z.max 280 (z.min 1 z.string));
    ("timestart", z.optional z.number);
    ("timeend", z.optional z.number);
    ("replyToTweetId", z.optional (z.positive z.number))
  ].

(** The argument of [.values(...)]: the five properties as destructured
    from [data], [None] for [undefined]. *)
Record Values := {
  content : option Json.value;
  userId : option Json.value;
  timestart : option Json.value;
  timeend : option Json.value;
  replyToTweetId : option Json.value
}.

(** [const { userId, content, timestart, timeend, replyToTweetId } = data]
    and the object literal handed to [.values]. *)
Definition destructure (data : Json.value) : Values := {|
  content := Json.get data "content";
  userId := Json.get data "userId";
  timestart := Json.get data "timestart";
  timeend := Json.get data "timeend";
  replyToTweetId := Json.get data "replyToTweetId"
|}.

Inductive Operation : Type :=
| InsertTweet (values : Values).

Inductive Body : Type :=
| Error (error : string)
| Data (data : list Z).   (* the rows [{ id }] that [returning] yields *)

Record Response := {
  status : Z;
  body : Body
}.

Definition NextResponse_json (body : Body) (status : Z) : Response :=
  {| status := status; body := body |}.

(** How a call of the handler ends: with a response, or with the rejection
    of [request.json()], which the handler does not catch. *)
Inductive Outcome : Type :=
| Responded (response : Response)
| Uncaught.

Section Handler.
(** The data store behind [db]: a state, and what
    [insert(tweetsTable).values(v).returning({ id }).execute()] does to
    it, either the returned identifiers or the cause it throws. *)
Variable Store : Type.
Variable insert_returning : Store -> Values -> Store * (string + list Z).

(** [POST(request)]; [request_json] is [None] when [request.json()]
    rejects.  Returns the outcome, the operations sent to the store and
    the store afterwards. *)
Definition POST (request_json : option Json.value) (store : Store)
  : Outcome * list Operation * Store :=
  match request_json with
  | None => (Uncaught, [], store)
  | Some data =>
      if negb (z.parse postTweetRequestSchema data) then
        (Responded (NextResponse_json (Error "Invalid request") 400),
         [], store)
      else
        let values := destructure data in
        match insert_returning store values with
        | (store', inr tweetid) =>
            (Responded (NextResponse_json (Data tweetid) 200),
             [InsertTweet values], store')
        | (store', inl _) =>
            (Responded
               (NextResponse_json (Error "Something went wrong") 500),
             [InsertTweet values], store')
        end
  end.
End Handler.

(** A store to run the handler on: a serial identifier, the rows inserted
    so far, and a switch that makes every insert fail. *)
Record MemStore := {
  online : bool;
  next_id : Z;
  inserted : list (Z * Values)
}.

Definition mem_insert (store : MemStore) (values : Values)
  : MemStore * (string + list Z) :=
  if online store then
    ({| online := true;
        next_id := next_id store + 1;
        inserted := inserted store ++ [(next_id store, values)] |},
     inr [next_id store])
  else (store, inl "connect ECONNREFUSED").

End Route.


(* ================================================================== *)
(** ** Vocabulary of the statements *)
(* ================================================================== *)

(** Where [errorRedirect] sends the browser: the root path, with the
    username as query parameter when there is one. *)
Definition home (username : option string) : Page.Location := {|
  Page.pathname := "/";
  Page.search := match username with
                 | Some (String c u) => [("username", String c u)]
                 | _ => []
                 end
|}.

(** [t] is a direct reply to the tweet [tweet_id_num]. *)
Definition is_reply_to (tweet_id_num : JS.number) (t : Tweet) : bool :=
  Sql.eq_num_nullable (tweets_replyToTweetId t) tweet_id_num.

(** The like rows of a tweet, the user rows a tweet's [userId] resolves to,
    and the like rows one viewer holds on a tweet. *)
Definition like_rows (db : Database) (id : Z) : list Like :=
  filter (fun l => likes_tweetId l =? id) (likesTable db).

Definition author_rows (db : Database) (t : Tweet) : list User :=
  filter (fun u => tweets_userId t =? users_id u) (usersTable db).

Definition viewer_like_rows (db : Database) (userid id : Z) : list Like :=
  filter (fun l => (likes_userId l =? userid) && (likes_tweetId l =? id))
    (likesTable db).

(** Decimal digits, and the integer a string of them denotes. *)
Definition is_decimal_digit (c : ascii) : bool :=
  let n := Z.of_N (N_of_ascii c) in (48 <=? n) && (n <=? 57).

Fixpoint all_decimal (s : string) : bool :=
  match s with
  | String c rest => is_decimal_digit c && all_decimal rest
  | EmptyString => true
  end.

Definition begins_with_decimal (s : string) : bool :=
  match s with
  | String c _ => is_decimal_digit c
  | EmptyString => false
  end.

(** No code unit of [s] is a decimal digit. *)
Fixpoint no_decimal (s : string) : bool :=
  match s with
  | String c rest => negb (is_decimal_digit c) && no_decimal rest
  | EmptyString => true
  end.

Fixpoint decimal_from (acc : Z) (s : string) : Z :=
  match s with
  | String c rest => decimal_from (10 * acc + (Z.of_N (N_of_ascii c) - 48)) rest
  | EmptyString => acc
  end.

Definition decimal_value (s : string) : Z := decimal_from 0 s.

Definition sign_value (sign : string) : Z :=
  if String.eqb sign "-" then -1 else 1.

(** The count a group-by result holds for a key, 0 when the group is
    absent. *)
Definition count_for (groups : list (Z * Z)) (k : Z) : Z :=
  match filter (fun g => k =? fst g) groups with
  | [] => 0
  | g :: _ => snd g
  end.

(** The columns a reply row takes from its tweet row. *)
Definition reply_columns (r : Page.Reply) : Z * string * option Z * Z :=
  (Page.reply_id r, Page.reply_content r, Page.reply_replyToTweetId r,
   Page.reply_createdAt r).

Definition tweet_columns (t : Tweet) : Z * string * option Z * Z :=
  (tweets_id t, tweets_content t, tweets_replyToTweetId t,
   tweets_createdAt t).

(** The [FROM] clause of the [replies] query over a given list of tweet
    rows (the query itself runs it over the whole tweets table). *)
Definition from_tweets (db : Database) (userid : Z) (tweets : list Tweet)
  : list Page.Joined :=
  Sql.left_join (fun r liked => tweets_id (fst (fst r)) =? fst liked)
    (Sql.left_join (fun r likes => tweets_id (fst r) =? fst likes)
       (Sql.inner_join (fun t u => tweets_userId t =? users_id u)
          tweets (usersTable db))
       (Page.likesSubquery db))
    (Page.likedSubquery db userid).

(** *** Sample data *)

Definition row_user (id : Z) (displayName : string) : User :=
  {| users_id := id; users_displayName := displayName |}.

Definition row_tweet (id userId : Z) (content : string)
  (replyToTweetId : option Z) (createdAt : Z) : Tweet :=
  {| tweets_id := id; tweets_userId := userId; tweets_content := content;
     tweets_timestart := None; tweets_timeend := None;
     tweets_replyToTweetId := replyToTweetId; tweets_createdAt := createdAt |}.

Definition row_like (id tweetId userId : Z) : Like :=
  {| likes_id := id; likes_tweetId := tweetId; likes_userId := userId |}.

(** Two users; tweet 1 with three replies stored out of order; tweet 3
    liked once by each user, nothing else liked. *)
Definition sample : Database := {|
  usersTable := [row_user 1 "amy"; row_user 2 "bob"];
  tweetsTable := [row_tweet 0 1 "zero" None 50;
                  row_tweet 1 1 "hello" None 100;
                  row_tweet 4 1 "third" (Some 1) 400;
                  row_tweet 2 2 "first" (Some 1) 200;
                  row_tweet 3 2 "second" (Some 1) 300];
  likesTable := [row_like 1 3 1; row_like 2 3 2]
|}.

(** Tweet 1 and its reply 5 both name a user that has no row. *)
Definition orphaned : Database := {|
  usersTable := [row_user 1 "amy"];
  tweetsTable := [row_tweet 1 7 "hello" None 100;
                  row_tweet 5 9 "reply" (Some 1) 200];
  likesTable := []
|}.

(** Tweet 1 has its author; its reply 5 names a user that has no row. *)
Definition orphaned_reply : Database := {|
  usersTable := [row_user 1 "amy"];
  tweetsTable := [row_tweet 1 1 "hello" None 100;
                  row_tweet 5 9 "reply" (Some 1) 200];
  likesTable := []
|}.

(** User 2 holds two like rows on reply 3. *)
Definition double_liked : Database := {|
  usersTable := [row_user 1 "amy"; row_user 2 "bob"];
  tweetsTable := [row_tweet 1 1 "hello" None 100;
                  row_tweet 2 2 "first" (Some 1) 200;
                  row_tweet 3 2 "second" (Some 1) 300;
                  row_tweet 4 1 "third" (Some 1) 400];
  likesTable := [row_like 1 3 2; row_like 2 3 2]
|}.

(** *** The request body *)

(** The shape as the specification words it: [userId] an integer,
    [content] a string of 1 to 280 code units, [timestart] and [timeend]
    optional integers, [replyToTweetId] an optional positive integer. *)
Definition is_integer (n : JS.number) : bool :=
  match n with
  | JS.Fin q => Z.pos (Qden (Qred q)) =? 1
  | _ => false
  end.

Definition an_integer (v : option Json.value) : bool :=
  match v with
  | Some (Json.Number n) => is_integer n
  | _ => false
  end.

Definition a_positive_integer (v : option Json.value) : bool :=
  match v with
  | Some (Json.Number n) => is_integer n && JS.positive n
  | _ => false
  end.

Definition if_present (test : option Json.value -> bool)
  (v : option Json.value) : bool :=
  match v with
  | None => true
  | Some _ => test v
  end.

Definition declared_shape (data : Json.value) : bool :=
  match data with
  | Json.Object _ =>
      an_integer (Json.get data "userId")
      && match Json.get data "content" with
         | Some (Json.Str s) =>
             (1 <=? Z.of_nat (String.length s))
             && (Z.of_nat (String.length s) <=? 280)
         | _ => false
         end
      && if_present an_integer (Json.get data "timestart")
      && if_present an_integer (Json.get data "timeend")
      && if_present a_positive_integer (Json.get data "replyToTweetId")
  | _ => false
  end.

(** The shape the schema accepts: numbers where the specification says
    integers. *)
Definition a_number (v : option Json.value) : Prop :=
  exists n, v = Some (Json.Number n) /\ n <> JS.NaN.

Definition a_positive_number (v : option Json.value) : Prop :=
  exists n, v = Some (Json.Number n) /\ JS.positive n = true.

Definition a_string_within (lo hi : Z) (v : option Json.value) : Prop :=
  exists s, v = Some (Json.Str s) /\ lo <= Z.of_nat (String.length s) <= hi.

Definition absent_or (P : option Json.value -> Prop)
  (v : option Json.value) : Prop :=
  v = None \/ P v.

Definition accepted_shape (data : Json.value) : Prop :=
  (exists properties, data = Json.Object properties) /\
  a_number (Json.get data "userId") /\
  a_string_within 1 280 (Json.get data "content") /\
  absent_or a_number (Json.get data "timestart") /\
  absent_or a_number (Json.get data "timeend") /\
  absent_or a_positive_number (Json.get data "replyToTweetId").

(** A body that conforms to the schema in everything but, possibly, its
    [content]: an object whose [userId] is a number, whose [timestart] and
    [timeend] are absent or numbers and whose [replyToTweetId] is absent or
    a positive number. *)
Definition otherwise_conforming (data : Json.value) : Prop :=
  (exists properties, data = Json.Object properties) /\
  a_number (Json.get data "userId") /\
  absent_or a_number (Json.get data "timestart") /\
  absent_or a_number (Json.get data "timeend") /\
  absent_or a_positive_number (Json.get data "replyToTweetId").

(** *** Sample requests and stores *)

Fixpoint filler (n : nat) : string :=
  match n with
  | O => EmptyString
  | S n' => String "a" (filler n')
  end.

Definition payload (userId : JS.number) (content : string) : Json.value :=
  Json.Object [("userId", Json.Number userId); ("content", Json.Str content)].

Definition store_online : Route.MemStore :=
  {| Route.online := true; Route.next_id := 5; Route.inserted := [] |}.

Definition store_offline : Route.MemStore :=
  {| Route.online := false; Route.next_id := 5; Route.inserted := [] |}.

Definition invalid_request : Route.Outcome :=
  Route.Responded
    {| Route.status := 400; Route.body := Route.Error "Invalid request" |}.

Definition something_went_wrong : Route.Outcome :=
  Route.Responded
    {| Route.status := 500;
       Route.body := Route.Error "Something went wrong" |}.

Definition ok (tweetid : list Z) : Route.Outcome :=
  Route.Responded
    {| Route.status := 200; Route.body := Route.Data tweetid |}.

(* ================================================================== *)
(** ** The rest of the page and of the repository *)
(* ================================================================== *)

(** The five queries of a render that reaches its view, in the order the
    page awaits them. *)
Definition five_queries (tweet_id_num : JS.number) (userid author : Z)
  : list Page.Query :=
  [Page.SelectTweetData tweet_id_num;
   Page.SelectLikes tweet_id_num;
   Page.SelectLiked tweet_id_num userid;
   Page.SelectUser author;
   Page.SelectReplies tweet_id_num userid].

(** The [tweet] object the page builds from a tweet row and a user row. *)
Definition tweet_view (db : Database) (tweet_id_num : JS.number) (userid : Z)
  (tweetData : Tweet) (user : User) : Page.TweetView := {|
  Page.tweet_id := tweets_id tweetData;
  Page.tweet_content := tweets_content tweetData;
  Page.tweet_timestart := tweets_timestart tweetData;
  Page.tweet_timeend := tweets_timeend tweetData;
  Page.tweet_username := users_displayName user;
  Page.tweet_userid := users_id user;
  Page.tweet_likes :=
    Z.of_nat (List.length (Page.selectLikes db tweet_id_num));
  Page.tweet_createdAt := tweets_createdAt tweetData;
  Page.tweet_liked :=
    negb (Page.is_undefined
            (Page.first (Page.selectLiked db tweet_id_num userid)))
|}.

(** The reply row that a reply and one of its author rows give, read off
    the tables: the count of the tweet's like rows, NULL when there is
    none, and the viewer's mark, NULL when the viewer holds no like row. *)
Definition reply_row (db : Database) (userid : Z) (t : Tweet) (u : User)
  : Page.Reply := {|
  Page.reply_id := tweets_id t;
  Page.reply_content := tweets_content t;
  Page.reply_replyToTweetId := tweets_replyToTweetId t;
  Page.reply_username := users_displayName u;
  Page.reply_userid := users_id u;
  Page.reply_likes :=
    match like_rows db (tweets_id t) with
    | [] => None
    | rows => Some (Z.of_nat (List.length rows))
    end;
  Page.reply_createdAt := tweets_createdAt t;
  Page.reply_liked :=
    match viewer_like_rows db userid (tweets_id t) with
    | [] => None
    | _ => Some true
    end
|}.

(** The number of rows a reply contributes to the [replies] query: one per
    author row, times one per like row of the viewer (one when there is
    none). *)
Definition rows_of_reply (db : Database) (userid : Z) (t : Tweet) : nat :=
  (List.length (author_rows db t)
   * Nat.max 1 (List.length (viewer_like_rows db userid (tweets_id t))))%nat.

(** [Number.prototype.toString()] on an integer: its decimal digits, with
    a minus sign when negative.  (From 10^21 on JavaScript switches to
    exponent notation, which the digits below do not follow.) *)
Definition digit_char (d : Z) : ascii := ascii_of_N (Z.to_N (48 + d)).

Fixpoint decimal_digits (fuel : nat) (n : Z) : string :=
  match fuel with
  | O => EmptyString
  | S fuel' =>
      String.append
        (if n <? 10 then EmptyString else decimal_digits fuel' (n / 10))
        (String (digit_char (n mod 10)) EmptyString)
  end.

Definition Number_toString (z : Z) : string :=
  let digits :=
    decimal_digits (S (Z.to_nat (Z.log2 (Z.abs z)))) (Z.abs z) in
  if z <? 0 then String "-" digits else digits.

(** What the page hands to the components it renders. *)
Module Jsx.

(** [<LikeButton userId={parseInt(userid.toString())}
    initialLiked={tweet.liked} tweetId={tweet.id} />] *)
Record LikeButtonProps := {
  userId : JS.number;
  initialLiked : bool;
  tweetId : Z
}.

Definition LikeButton (userid : Z) (tweet : Page.TweetView)
  : LikeButtonProps := {|
  userId := JS.parseInt (Number_toString userid);
  initialLiked := Page.tweet_liked tweet;
  tweetId := Page.tweet_id tweet
|}.

(** [<Tweet key={reply.id} id={reply.id} username={username}
    userid={userid} authorName={reply.username} ... state={false} />] *)
Record TweetProps := {
  key : Z;
  id : Z;
  username : option string;
  userid : Z;
  authorName : string;
  content : string;
  timestart : option Z;
  timeend : option Z;
  likes : option Z;
  liked : option bool;
  createdAt : Z;
  state : bool
}.

(** [replies.map((reply) => <Tweet ... />)] *)
Definition Tweets (username : option string) (userid : Z)
  (replies : list Page.Reply) : list TweetProps :=
  map (fun reply => {|
         key := Page.reply_id reply;
         id := Page.reply_id reply;
         username := username;
         userid := userid;
         authorName := Page.reply_username reply;
         content := Page.reply_content reply;
         timestart := None;
         timeend := None;
         likes := Page.reply_likes reply;
         liked := Page.reply_liked reply;
         createdAt := Page.reply_createdAt reply;
         state := false
       |}) replies.

End Jsx.

(** [ProfileButton] ([src/unnamed/part_000]): a button and the dialog it
    opens.  The component's state is [openEventDialog]; the button's
    [onClick] sets it, the dialog's [onClose] clears it. *)
Module ProfileButton.

Inductive Event : Type :=
| onClick
| onClose.

(** [useState(false)] *)
Definition initial : bool := false.

Definition handle (openEventDialog : bool) (e : Event) : bool :=
  match e with
  | onClick => true
  | onClose => false
  end.

(** [openEventDialog] after a sequence of events; it is the [open] prop of
    [AddEventDialog]. *)
Definition openEventDialog (events : list Event) : bool :=
  fold_left handle events initial.

End ProfileButton.

(** *** The rest of the handler *)

(** The keys of the schema's shape. *)
Definition shape_keys : list string :=
  ["userId"; "content"; "timestart"; "timeend"; "replyToTweetId"].

(** Values that went through the schema. *)
Definition validated (values : Route.Values) : Prop :=
  a_number (Route.userId values) /\
  a_string_within 1 280 (Route.content values) /\
  absent_or a_number (Route.timestart values) /\
  absent_or a_number (Route.timeend values) /\
  absent_or a_positive_number (Route.replyToTweetId values).

(** The operations, and the store, a call of the handler leaves. *)
Definition operations {Store : Type}
  (result : Route.Outcome * list Route.Operation * Store)
  : list Route.Operation := snd (fst result).

Definition outcome {Store : Type}
  (result : Route.Outcome * list Route.Operation * Store)
  : Route.Outcome := fst (fst result).

Definition store_after {Store : Type}
  (result : Route.Outcome * list Route.Operation * Store) : Store :=
  snd result.

(* ================================================================== *)
(** ** The model at work *)
(* ================================================================== *)

Example parseInt_digits : JS.parseInt "12" = JS.ofZ 12.
Proof. reflexivity. Qed.

Example parseInt_letters : JS.parseInt "abc" = JS.NaN.
Proof. reflexivity. Qed.

Example parseInt_digits_then_letters : JS.parseInt "12abc" = JS.ofZ 12.
Proof. reflexivity. Qed.

Example parseInt_letters_then_digits : JS.parseInt "abc12" = JS.NaN.
Proof. reflexivity. Qed.

Example parseInt_space_and_sign : JS.parseInt "  -42px" = JS.ofZ (-42).
Proof. reflexivity. Qed.

Example parseInt_hexadecimal : JS.parseInt "0x1f" = JS.ofZ 31.
Proof. reflexivity. Qed.

Example parseInt_bare_hex_prefix : JS.parseInt "0x" = JS.NaN.
Proof. reflexivity. Qed.

Example parseInt_beyond_2_53 :
  JS.parseInt "9007199254740993" = JS.ofZ 9007199254740992.
Proof. vm_compute. reflexivity. Qed.

Example parseInt_tie_to_even :
  JS.parseInt "9007199254740995" = JS.ofZ 9007199254740996.
Proof. vm_compute. reflexivity. Qed.

Example likesSubquery_sample : Page.likesSubquery sample = [(3, 2)].
Proof. reflexivity. Qed.

Example likedSubquery_sample : Page.likedSubquery sample 2 = [(3, true)].
Proof. reflexivity. Qed.

Example selectReplies_sample :
  map (fun r => (Page.reply_id r, Page.reply_username r, Page.reply_likes r,
                 Page.reply_liked r))
    (Page.selectReplies sample (JS.ofZ 1) 2)
  = [(2, "bob", None, None); (3, "bob", Some 2, Some true);
     (4, "amy", None, None)].
Proof. reflexivity. Qed.

Example TweetPage_unknown_tweet :
  Page.TweetPage sample "7" (Some "amy") 2
  = ([Page.SelectTweetData (JS.ofZ 7)],
     inl (Page.Redirected (home (Some "amy")))).
Proof. reflexivity. Qed.

Example parse_null_timestart :
  z.parse Route.postTweetRequestSchema
    (Json.Object [("userId", Json.Number (JS.ofZ 1));
                  ("content", Json.Str "hi");
                  ("timestart", Json.Null)]) = false.
Proof. reflexivity. Qed.

Example parse_unknown_key :
  z.parse Route.postTweetRequestSchema
    (Json.Object [("userId", Json.Number (JS.ofZ 1));
                  ("content", Json.Str "hi");
                  ("pinned", Json.Bool true)]) = true.
Proof. reflexivity. Qed.

Example parse_negative_replyToTweetId :
  z.parse Route.postTweetRequestSchema
    (Json.Object [("userId", Json.Number (JS.ofZ 1));
                  ("content", Json.Str "hi");
                  ("replyToTweetId", Json.Number (JS.ofZ 0))]) = false.
Proof. reflexivity. Qed.

Example POST_unreadable_body :
  Route.POST Route.MemStore Route.mem_insert None store_online
  = (Route.Uncaught, [], store_online).
Proof. reflexivity. Qed.

(* ================================================================== *)
(** ** The relational operators: facts *)
(* ================================================================== *)

Section SqlFacts.
Context {A B : Type}.
Implicit Types (l : list A) (r : list B).

Lemma filter_flat_map {C} (p : C -> bool) (f : A -> list C) l :
  filter p (flat_map f l) = flat_map (fun a => filter p (f a)) l.
Proof.
  induction l as [|a l IH]; simpl; [reflexivity|].
  now rewrite filter_app, IH.
Qed.

Lemma flat_map_filter {C} (p : A -> bool) (f : A -> list C) l :
  flat_map f (filter p l)
  = flat_map (fun a => if p a then f a else []) l.
Proof.
  induction l as [|a l IH]; simpl; [reflexivity|].
  destruct (p a); simpl; now rewrite IH.
Qed.

Lemma filter_const_on {C} (p : C -> bool) (b : bool) (rows : list C) :
  (forall c, In c rows -> p c = b) ->
  filter p rows = if b then rows else [].
Proof.
  induction rows as [|c rows IH]; intros H; simpl.
  - now destruct b.
  - rewrite (H c (or_introl eq_refl)), IH by (intros; apply H; now right).
    now destruct b.
Qed.

(** A [WHERE] on the left row can be evaluated before the join. *)
Lemma inner_join_where (p : A -> bool) (on : A -> B -> bool) l r :
  filter (fun row => p (fst row)) (Sql.inner_join on l r)
  = Sql.inner_join on (filter p l) r.
Proof.
  unfold Sql.inner_join. rewrite filter_flat_map, flat_map_filter.
  apply flat_map_ext. intros a.
  rewrite (filter_const_on _ (p a)).
  - reflexivity.
  - intros [a' b] Hin. apply in_map_iff in Hin as (b' & E & _).
    now inversion E.
Qed.

Lemma In_pad_left (a : A) (matches : list B) row :
  In row (Sql.pad_left a matches) -> fst row = a.
Proof.
  destruct matches as [|b rest]; simpl.
  - intros [<-|F]; [reflexivity | destruct F].
  - intros [<-|Hin]; [reflexivity|].
    apply in_map_iff in Hin as (b' & <- & _). reflexivity.
Qed.

Lemma left_join_where (p : A -> bool) (on : A -> B -> bool) l r :
  filter (fun row => p (fst row)) (Sql.left_join on l r)
  = Sql.left_join on (filter p l) r.
Proof.
  unfold Sql.left_join. rewrite filter_flat_map, flat_map_filter.
  apply flat_map_ext. intros a.
  rewrite (filter_const_on _ (p a)).
  - reflexivity.
  - intros row Hin. now rewrite (In_pad_left _ _ _ Hin).
Qed.

(** Joins in which every left row meets one right row (at most one, for
    a left join) return the left rows one for one, in their order. *)
Lemma inner_join_one_to_one (on : A -> B -> bool) l r :
  (forall a, In a l -> List.length (filter (on a) r) = 1%nat) ->
  map fst (Sql.inner_join on l r) = l.
Proof.
  unfold Sql.inner_join.
  induction l as [|a l IH]; intros H; simpl; [reflexivity|].
  rewrite map_app, IH by (intros; apply H; now right).
  specialize (H a (or_introl eq_refl)).
  destruct (filter (on a) r) as [|b [|b' rest]]; try discriminate.
  reflexivity.
Qed.

Lemma left_join_at_most_one (on : A -> B -> bool) l r :
  (forall a, In a l -> (List.length (filter (on a) r) <= 1)%nat) ->
  map fst (Sql.left_join on l r) = l.
Proof.
  unfold Sql.left_join.
  induction l as [|a l IH]; intros H; simpl; [reflexivity|].
  rewrite map_app, IH by (intros; apply H; now right).
  specialize (H a (or_introl eq_refl)).
  destruct (filter (on a) r) as [|b [|b' rest]]; simpl in *;
    [reflexivity | reflexivity | lia].
Qed.

(** Membership in the joins. *)
Lemma In_inner_join (on : A -> B -> bool) l r (a : A) (b : B) :
  In (a, b) (Sql.inner_join on l r) <-> In a l /\ In b r /\ on a b = true.
Proof.
  unfold Sql.inner_join. rewrite in_flat_map. split.
  - intros (a' & Ha & Hin). apply in_map_iff in Hin as (b' & E & Hb).
    inversion E; subst. apply filter_In in Hb. tauto.
  - intros (Ha & Hb & Hon). exists a. split; [assumption|].
    apply in_map. apply filter_In. tauto.
Qed.

Lemma In_left_join (on : A -> B -> bool) l r (a : A) (ob : option B) :
  In (a, ob) (Sql.left_join on l r) <->
  In a l /\ match ob with
            | None => filter (on a) r = []
            | Some b => In b r /\ on a b = true
            end.
Proof.
  unfold Sql.left_join. rewrite in_flat_map. split.
  - intros (a' & Ha & Hin).
    pose proof (In_pad_left _ _ _ Hin) as E. simpl in E. subst a'.
    split; [assumption|].
    unfold Sql.pad_left in Hin.
    destruct (filter (on a) r) as [|b0 rest] eqn:F.
    + destruct Hin as [E|Hnil]; [now inversion E | destruct Hnil].
    + apply in_map_iff in Hin as (b' & E & Hb). inversion E; subst.
      rewrite <- F in Hb. apply filter_In in Hb. assumption.
  - intros (Ha & Hob). exists a. split; [assumption|].
    destruct ob as [b|].
    + assert (Hb : In b (filter (on a) r)) by (apply filter_In; tauto).
      unfold Sql.pad_left.
      destruct (filter (on a) r) as [|b0 rest]; [destruct Hb|].
      apply (in_map (fun b => (a, Some b))). assumption.
    + rewrite Hob. now left.
Qed.
End SqlFacts.

Section OrderByFacts.
Context {A : Type} (key : A -> Z).

Lemma insert_asc_perm x sorted :
  Permutation (Sql.insert_asc key x sorted) (x :: sorted).
Proof.
  induction sorted as [|y rest IH]; simpl; [reflexivity|].
  destruct (key x <=? key y); [reflexivity|].
  eapply perm_trans; [apply perm_skip, IH | apply perm_swap].
Qed.

Lemma order_by_asc_perm l : Permutation (Sql.order_by_asc key l) l.
Proof.
  induction l as [|x l IH]; simpl; [constructor|].
  eapply perm_trans; [apply insert_asc_perm | apply perm_skip, IH].
Qed.

Lemma insert_asc_sorted x sorted :
  StronglySorted (fun a b => key a <= key b) sorted ->
  StronglySorted (fun a b => key a <= key b) (Sql.insert_asc key x sorted).
Proof.
  induction 1 as [|y rest Hs IH Hall]; simpl.
  - repeat constructor.
  - destruct (key x <=? key y) eqn:E.
    + apply Z.leb_le in E. constructor; [now constructor|].
      constructor; [assumption|].
      eapply Forall_impl; [|exact Hall]. simpl. intros; lia.
    + apply Z.leb_gt in E. constructor; [assumption|].
      eapply Permutation_Forall;
        [apply Permutation_sym, insert_asc_perm|].
      constructor; [lia | assumption].
Qed.

Lemma order_by_asc_sorted l :
  StronglySorted (fun a b => key a <= key b) (Sql.order_by_asc key l).
Proof.
  induction l as [|x l IH]; simpl; [constructor|].
  now apply insert_asc_sorted.
Qed.

Lemma StronglySorted_map_key l :
  StronglySorted (fun a b => key a <= key b) l ->
  StronglySorted Z.le (map key l).
Proof.
  induction 1 as [|x l Hs IH Hall]; simpl; constructor; [assumption|].
  now apply Forall_map.
Qed.

Lemma map_insert_asc {B} (f : B -> A) x (l : list B) :
  map f (Sql.insert_asc (fun b => key (f b)) x l)
  = Sql.insert_asc key (f x) (map f l).
Proof.
  induction l as [|y l IH]; simpl; [reflexivity|].
  destruct (key (f x) <=? key (f y)); simpl; [reflexivity|].
  now rewrite IH.
Qed.

(** Sorting commutes with a projection that carries the key. *)
Lemma map_order_by_asc {B} (f : B -> A) (l : list B) :
  map f (Sql.order_by_asc (fun b => key (f b)) l)
  = Sql.order_by_asc key (map f l).
Proof.
  induction l as [|x l IH]; simpl; [reflexivity|].
  now rewrite map_insert_asc, IH.
Qed.

(** A list whose keys increase strictly is the only ascending
    arrangement of its rows. *)
Lemma ascending_arrangement_unique (l1 l2 : list A) :
  StronglySorted (fun a b => key a < key b) l1 ->
  StronglySorted (fun a b => key a <= key b) l2 ->
  Permutation l1 l2 ->
  l2 = l1.
Proof.
  intros H1. revert l2.
  induction H1 as [|x l1 Hs IH Hx]; intros l2 H2 Hp.
  - now apply Permutation_nil in Hp.
  - destruct H2 as [|y l2 Hs2 Hy].
    + apply Permutation_sym, Permutation_nil in Hp. discriminate.
    + assert (E : y = x).
      { assert (Hyin : In y (x :: l1))
          by (eapply Permutation_in;
              [apply Permutation_sym, Hp | now left]).
        assert (Hxin : In x (y :: l2))
          by (eapply Permutation_in; [apply Hp | now left]).
        destruct Hyin as [E|Hyin]; [now symmetry|].
        destruct Hxin as [E|Hxin]; [assumption|].
        rewrite Forall_forall in Hx, Hy.
        specialize (Hx _ Hyin). specialize (Hy _ Hxin). lia. }
      subst y. f_equal. apply IH; [assumption|].
      eapply Permutation_cons_inv, Hp.
Qed.
End OrderByFacts.

Section GroupByFacts.

Lemma bump_same k groups :
  filter (fun g => k =? fst g) (Sql.bump k groups)
  = match filter (fun g => k =? fst g) groups with
    | [] => [(k, 1)]
    | (k', c) :: rest => (k', c + 1) :: rest
    end.
Proof.
  induction groups as [|[k' c] groups IH]; simpl.
  - now rewrite Z.eqb_refl.
  - rewrite (Z.eqb_sym k k').
    destruct (k' =? k) eqn:E; simpl; rewrite (Z.eqb_sym k k'), E.
    + reflexivity.
    + exact IH.
Qed.

Lemma bump_other k k' groups :
  k <> k' ->
  filter (fun g => k' =? fst g) (Sql.bump k groups)
  = filter (fun g => k' =? fst g) groups.
Proof.
  intros Hne.
  induction groups as [|[k0 c] groups IH]; simpl.
  - destruct (Z.eqb_spec k' k); [congruence | reflexivity].
  - destruct (Z.eqb_spec k0 k) as [->|Hk0]; simpl.
    + destruct (Z.eqb_spec k' k); [congruence | reflexivity].
    + now rewrite IH.
Qed.

Lemma count_for_bump k k' groups :
  count_for (Sql.bump k groups) k'
  = count_for groups k' + (if k =? k' then 1 else 0).
Proof.
  unfold count_for.
  destruct (Z.eqb_spec k k') as [<-|Hne].
  - rewrite bump_same.
    destruct (filter (fun g => k =? fst g) groups) as [|[k0 c] rest];
      reflexivity.
  - rewrite bump_other by assumption.
    destruct (filter _ groups) as [|g rest]; simpl; lia.
Qed.

Lemma count_for_scan keys : forall groups k,
  count_for (fold_left (fun groups k => Sql.bump k groups) keys groups) k
  = count_for groups k
    + Z.of_nat (List.length (filter (fun k' => k' =? k) keys)).
Proof.
  induction keys as [|k0 keys IH]; intros groups k; simpl.
  - lia.
  - rewrite IH, count_for_bump.
    destruct (k0 =? k); simpl List.length; lia.
Qed.

(** The grouped count of a key is the number of rows that carry it. *)
Lemma count_for_group_count keys k :
  count_for (Sql.group_count keys) k
  = Z.of_nat (List.length (filter (fun k' => k' =? k) keys)).
Proof. unfold Sql.group_count. now rewrite count_for_scan. Qed.

Lemma group_scan_rows keys : forall groups k,
  (List.length (filter (fun g => (k =? fst g)%Z) groups) <= 1)%nat ->
  (List.length
     (filter (fun g => (k =? fst g)%Z)
        (fold_left (fun groups k => Sql.bump k groups) keys groups))
   <= 1)%nat.
Proof.
  induction keys as [|k0 keys IH]; intros groups k H; simpl;
    [assumption|].
  apply IH.
  destruct (Z.eq_dec k0 k) as [->|Hne].
  - rewrite bump_same.
    destruct (filter _ groups) as [|[k' c] rest]; simpl in *; lia.
  - now rewrite bump_other.
Qed.

(** A group-by result holds at most one row per key ... *)
Lemma group_count_one_row keys k :
  (List.length (filter (fun g => (k =? fst g)%Z) (Sql.group_count keys))
   <= 1)%nat.
Proof. apply group_scan_rows. simpl. lia. Qed.

Lemma group_scan_absent keys : forall groups k,
  ~ In k keys ->
  filter (fun g => k =? fst g)
    (fold_left (fun groups k => Sql.bump k groups) keys groups)
  = filter (fun g => k =? fst g) groups.
Proof.
  induction keys as [|k0 keys IH]; intros groups k H; simpl;
    [reflexivity|].
  rewrite IH by (intros Hin; apply H; now right).
  apply bump_other. intros ->. apply H. now left.
Qed.

(** ... and none for a key that no row carries. *)
Lemma group_count_absent keys k :
  ~ In k keys ->
  filter (fun g => k =? fst g) (Sql.group_count keys) = [].
Proof. intros H. unfold Sql.group_count. now rewrite group_scan_absent. Qed.
End GroupByFacts.

(* ================================================================== *)
(** ** [parseInt]: facts *)
(* ================================================================== *)

Section ParseIntFacts.

Lemma decimal_digit_radix10 c :
  is_decimal_digit c = true ->
  JS.radixDigit 10 c = Some (Z.of_N (N_of_ascii c) - 48).
Proof.
  unfold is_decimal_digit, JS.radixDigit, JS.digitValue.
  intros H. rewrite H.
  apply andb_true_iff in H as [H1 H2].
  apply Z.leb_le in H1, H2.
  destruct (Z.ltb_spec (Z.of_N (N_of_ascii c) - 48) 10); [reflexivity | lia].
Qed.

Lemma other_char_radix10 c :
  is_decimal_digit c = false -> JS.radixDigit 10 c = None.
Proof.
  unfold is_decimal_digit, JS.radixDigit, JS.digitValue.
  intros H. rewrite H.
  set (n := Z.of_N (N_of_ascii c)) in *.
  destruct ((97 <=? n) && (n <=? 122)) eqn:E1.
  - apply andb_true_iff in E1 as [H1 H2]. apply Z.leb_le in H1, H2.
    destruct (Z.ltb_spec (n - 87) 10); [lia | reflexivity].
  - destruct ((65 <=? n) && (n <=? 90)) eqn:E2; [|reflexivity].
    apply andb_true_iff in E2 as [H1 H2]. apply Z.leb_le in H1, H2.
    destruct (Z.ltb_spec (n - 55) 10); [lia | reflexivity].
Qed.

Lemma decimal_digit_not c c' :
  is_decimal_digit c = true -> is_decimal_digit c' = false ->
  Ascii.eqb c c' = false.
Proof.
  intros H H'. destruct (Ascii.eqb_spec c c'); [congruence | reflexivity].
Qed.

Lemma decimal_digit_not_space c :
  is_decimal_digit c = true -> JS.isStrWhiteSpaceChar c = false.
Proof.
  unfold is_decimal_digit, JS.isStrWhiteSpaceChar. intros H.
  apply andb_true_iff in H as [H1 H2]. apply Z.leb_le in H1, H2.
  set (n := N_of_ascii c) in *.
  repeat (apply orb_false_iff; split); apply N.eqb_neq; lia.
Qed.

(** The digits [parseInt] reads from a run of decimal digits, whatever
    follows it, as long as that is not another decimal digit. *)
Lemma digitsPrefix_decimal digits rest :
  all_decimal digits = true ->
  begins_with_decimal rest = false ->
  JS.digitsPrefix 10 (digits ++ rest)%string
  = map (fun c => Z.of_N (N_of_ascii c) - 48) (list_ascii_of_string digits).
Proof.
  intros Hd Hr. induction digits as [|c digits IH]; simpl in *.
  - destruct rest as [|c rest]; [reflexivity|]. simpl in *.
    now rewrite other_char_radix10.
  - apply andb_true_iff in Hd as [Hc Hd].
    now rewrite decimal_digit_radix10, IH.
Qed.

Lemma mathInt_decimal digits : forall acc,
  fold_left (fun acc d => acc * 10 + d)
    (map (fun c => Z.of_N (N_of_ascii c) - 48)
       (list_ascii_of_string digits)) acc
  = decimal_from acc digits.
Proof.
  induction digits as [|c digits IH]; intros acc;
    cbn [fold_left map list_ascii_of_string decimal_from]; [reflexivity|].
  rewrite IH. f_equal. lia.
Qed.

Lemma hasHexPrefix_decimal digits :
  all_decimal digits = true -> JS.hasHexPrefix digits = false.
Proof.
  destruct digits as [|c0 [|c1 digits]]; simpl; intros H;
    unfold JS.hasHexPrefix; simpl.
  - reflexivity.
  - now rewrite andb_false_r.
  - apply andb_true_iff in H as [_ H]. apply andb_true_iff in H as [H _].
    rewrite !(decimal_digit_not c1) by (assumption || reflexivity).
    now rewrite andb_false_r.
Qed.

Lemma parseInt_leading_decimal sign digits rest :
  In sign [""; "+"; "-"] ->
  digits <> "" ->
  all_decimal digits = true ->
  begins_with_decimal rest = false ->
  JS.hasHexPrefix (digits ++ rest)%string = false ->
  JS.parseInt (sign ++ digits ++ rest)%string
  = JS.roundInt (sign_value sign * decimal_value digits).
Proof.
  intros Hs Hne Hd Hr Hx.
  destruct digits as [|c digits]; [congruence|].
  pose proof Hd as Hd'. simpl in Hd'.
  apply andb_true_iff in Hd' as [Hc _].
  assert (Hbody :
    match JS.digitsPrefix (if JS.hasHexPrefix (String c digits ++ rest)%string then 16 else 10)
            (if JS.hasHexPrefix (String c digits ++ rest)%string
             then JS.from2 (String c digits ++ rest)%string
             else (String c digits ++ rest)%string) with
    | [] => JS.NaN
    | Z => JS.roundInt (sign_value sign * JS.mathInt (if JS.hasHexPrefix (String c digits ++ rest)%string then 16 else 10) Z)
    end = JS.roundInt (sign_value sign * decimal_value (String c digits))).
  { rewrite Hx. cbv iota. rewrite digitsPrefix_decimal by assumption.
    cbn [list_ascii_of_string map]. unfold JS.mathInt, decimal_value.
    cbn [fold_left decimal_from]. rewrite mathInt_decimal.
    do 3 f_equal; lia. }
  unfold JS.parseInt.
  destruct Hs as [<-|[<-|[<-|[]]]].
  - change ("" ++ String c digits ++ rest)%string
      with (String c digits ++ rest)%string.
    assert (Ht : JS.trimStart (String c digits ++ rest)%string
                 = (String c digits ++ rest)%string)
      by (simpl; now rewrite (decimal_digit_not_space c Hc)).
    assert (Hm : JS.startsWith "-" (String c digits ++ rest)%string = false)
      by (apply decimal_digit_not; [assumption | reflexivity]).
    assert (Hp : JS.startsWith "+" (String c digits ++ rest)%string = false)
      by (apply decimal_digit_not; [assumption | reflexivity]).
    rewrite Ht, Hm, Hp. exact Hbody.
  - change ("+" ++ String c digits ++ rest)%string
      with (String "+" (String c digits ++ rest))%string.
    exact Hbody.
  - change ("-" ++ String c digits ++ rest)%string
      with (String "-" (String c digits ++ rest))%string.
    exact Hbody.
Qed.
End ParseIntFacts.

Lemma append_empty_r (s : string) : (s ++ "")%string = s.
Proof. induction s as [|c s IH]; simpl; [reflexivity | now rewrite IH]. Qed.

Lemma decimal_from_nonneg digits : forall acc,
  all_decimal digits = true -> 0 <= acc -> 0 <= decimal_from acc digits.
Proof.
  induction digits as [|c digits IH]; intros acc Hd Hacc;
    cbn [decimal_from all_decimal] in *; [assumption|].
  apply andb_true_iff in Hd as [Hc Hd]. apply IH; [assumption|].
  unfold is_decimal_digit in Hc. apply andb_true_iff in Hc as [H1 _].
  apply Z.leb_le in H1. lia.
Qed.

Lemma roundInt_exact z : Z.abs z < 2 ^ 53 -> JS.roundInt z = JS.ofZ z.
Proof.
  intros H. apply Z.ltb_lt in H. unfold JS.roundInt. cbv zeta.
  now rewrite H.
Qed.

Lemma roundInt_is_a_number z : JS.isNaN (JS.roundInt z) = false.
Proof.
  unfold JS.roundInt. cbv zeta.
  destruct (Z.abs z <? 2 ^ 53); [reflexivity|].
  match goal with |- context [if ?c then JS.Infinity _ else _] =>
    destruct c end; reflexivity.
Qed.

(* ================================================================== *)
(** ** The page: facts *)
(* ================================================================== *)

Ltac run_page :=
  cbv beta iota zeta delta
    [Page.TweetPage Page.bind Page.execute Page.ret Page.redirect
     Page.deref Page.first Page.is_undefined hd_error app].

Lemma eq_num_ofZ c z : Sql.eq_num c (JS.ofZ z) = (c =? z).
Proof.
  unfold Sql.eq_num, JS.ofZ.
  destruct (Z.eqb_spec c z) as [->|Hne].
  - now apply Qeq_bool_iff.
  - destruct (Qeq_bool (inject_Z c) (inject_Z z)) eqn:E; [|reflexivity].
    apply Qeq_bool_iff in E. rewrite inject_Z_injective in E. congruence.
Qed.

(** Two column values equal to the same number are equal. *)
Lemma eq_num_same n a b :
  Sql.eq_num a n = true -> Sql.eq_num b n = (b =? a).
Proof.
  destruct n as [| |q]; cbn [Sql.eq_num]; try discriminate.
  intros Ha. apply Qeq_bool_iff in Ha.
  destruct (Z.eqb_spec b a) as [->|Hne].
  - now apply Qeq_bool_iff.
  - destruct (Qeq_bool (inject_Z b) q) eqn:E; [|reflexivity].
    apply Qeq_bool_iff in E. exfalso. apply Hne.
    apply inject_Z_injective. now rewrite Ha, E.
Qed.

(** The page looks at its path segment through [parseInt] only. *)
Lemma TweetPage_parseInt db s1 s2 username userid :
  JS.parseInt s1 = JS.parseInt s2 ->
  Page.TweetPage db s1 username userid = Page.TweetPage db s2 username userid.
Proof. intros H. unfold Page.TweetPage. now rewrite H. Qed.

Lemma errorRedirect_home (username : option string) :
  match username with
  | Some u => if JS.truthy_string username then [("username", u)] else []
  | None => []
  end = Page.search (home username).
Proof. destruct username as [[|c u]|]; reflexivity. Qed.

(** Past the [isNaN] test the first thing the page does is to query the
    tweet. *)
Lemma TweetPage_first_query db tweet_id username userid :
  JS.isNaN (JS.parseInt tweet_id) = false ->
  exists log result,
    Page.TweetPage db tweet_id username userid
    = (Page.SelectTweetData (JS.parseInt tweet_id) :: log, result).
Proof.
  intros H. run_page. rewrite H.
  destruct (Page.selectTweetData db (JS.parseInt tweet_id)) as [|t rows];
    run_page; [eauto|].
  destruct (Page.selectUser db (tweets_userId t)) as [|u users];
    run_page; eauto.
Qed.

(** No tweet row: the page redirects after that one query. *)
Lemma TweetPage_missing_tweet db tweet_id username userid :
  JS.isNaN (JS.parseInt tweet_id) = false ->
  Page.selectTweetData db (JS.parseInt tweet_id) = [] ->
  Page.TweetPage db tweet_id username userid
  = ([Page.SelectTweetData (JS.parseInt tweet_id)],
     inl (Page.Redirected (home username))).
Proof.
  intros Hn Ht. run_page. rewrite Hn, Ht. run_page.
  unfold home. now rewrite errorRedirect_home.
Qed.

(** What a rendered view is made of. *)
Lemma TweetPage_rendered db tweet_id username userid log view :
  Page.TweetPage db tweet_id username userid = (log, inr view) ->
  exists tweetData rows user users,
    Page.selectTweetData db (JS.parseInt tweet_id) = tweetData :: rows /\
    Page.selectUser db (tweets_userId tweetData) = user :: users /\
    Page.tweet_id (Page.tweet view) = tweets_id tweetData /\
    Page.tweet_likes (Page.tweet view)
    = Z.of_nat (List.length (Page.selectLikes db (JS.parseInt tweet_id))) /\
    Page.tweet_liked (Page.tweet view)
    = negb (Page.is_undefined
              (Page.first (Page.selectLiked db (JS.parseInt tweet_id) userid))) /\
    Page.replies view = Page.selectReplies db (JS.parseInt tweet_id) userid.
Proof.
  run_page.
  destruct (JS.isNaN (JS.parseInt tweet_id)); [discriminate|].
  destruct (Page.selectTweetData db (JS.parseInt tweet_id)) as [|t rows];
    run_page; [discriminate|].
  destruct (Page.selectUser db (tweets_userId t)) as [|u users] eqn:Hu;
    run_page; [discriminate|].
  intros H. inversion H; subst; clear H.
  exists t, rows, u, users. cbn. repeat split; assumption || reflexivity.
Qed.

(** C6. A path segment that [parseInt] cannot turn into a number (such as
    "abc") redirects to the root path, the username kept as query
    parameter when there is one; no view is rendered and no query is sent
    to the data store. *)
Theorem TweetPage_not_a_number db tweet_id username userid :
  JS.isNaN (JS.parseInt tweet_id) = true ->
  Page.TweetPage db tweet_id username userid
  = ([], inl (Page.Redirected (home username))).
Proof.
  intros H. run_page. rewrite H. unfold home.
  now rewrite errorRedirect_home.
Qed.

Lemma TweetPage_not_a_number_abc :
  JS.isNaN (JS.parseInt "abc") = true /\
  Page.TweetPage sample "abc" (Some "amy") 2
  = ([], inl (Page.Redirected
                {| Page.pathname := "/";
                   Page.search := [("username", "amy")] |})).
Proof.
  split; [reflexivity|].
  apply (TweetPage_not_a_number sample "abc" (Some "amy") 2). reflexivity.
Defined.

(** C1 (the missing-author case). When the tweet row exists and its
    [userId] resolves to no user row, the page sends its first four queries
    and then throws a TypeError on [user.displayName]: it does not
    redirect. *)
Theorem TweetPage_missing_author db tweet_id username userid tweetData rows :
  JS.isNaN (JS.parseInt tweet_id) = false ->
  Page.selectTweetData db (JS.parseInt tweet_id) = tweetData :: rows ->
  Page.selectUser db (tweets_userId tweetData) = [] ->
  Page.TweetPage db tweet_id username userid
  = ([Page.SelectTweetData (JS.parseInt tweet_id);
      Page.SelectLikes (JS.parseInt tweet_id);
      Page.SelectLiked (JS.parseInt tweet_id) userid;
      Page.SelectUser (tweets_userId tweetData)],
     inl Page.TypeError).
Proof.
  intros Hn Ht Hu. run_page. rewrite Hn, Ht. run_page.
  rewrite Hu. reflexivity.
Qed.

Lemma TweetPage_missing_author_orphaned :
  Page.TweetPage orphaned "1" (Some "amy") 1
  = ([Page.SelectTweetData (JS.ofZ 1); Page.SelectLikes (JS.ofZ 1);
      Page.SelectLiked (JS.ofZ 1) 1; Page.SelectUser 7],
     inl Page.TypeError).
Proof.
  apply (TweetPage_missing_author orphaned "1" (Some "amy") 1
           (row_tweet 1 7 "hello" None 100) []); reflexivity.
Defined.

(** C8, as stated, fails on a hexadecimal prefix: in "0xzz" the leading
    "0" is an integer and no character after it is numeric, yet [parseInt]
    yields NaN and the page redirects without a query, although tweet 0
    exists and "0" renders it. *)
Lemma TweetPage_hex_prefix_segment :
  all_decimal "0" = true /\ no_decimal "xzz" = true /\
  JS.parseInt "0xzz" = JS.NaN /\
  Page.TweetPage sample "0xzz" (Some "amy") 2
  = ([], inl (Page.Redirected (home (Some "amy")))) /\
  exists log view,
    Page.TweetPage sample "0" (Some "amy") 2 = (log, inr view) /\
    Page.tweet_id (Page.tweet view) = 0.
Proof.
  repeat split; try reflexivity.
  eexists. eexists. split; reflexivity.
Qed.

(** C8, amended. A segment made of an optional sign, decimal digits and
    then characters that do not start with a decimal digit is read as the
    leading integer, unless digits and trailing characters begin with
    [0x]/[0X]: [parseInt] yields a number (the integer itself below 2^53,
    its nearest double beyond), the NaN redirect is not taken, the page
    queries that tweet, it ends exactly as it does for the segment without
    the trailing characters, and when that tweet and its author have rows
    it renders the view of that tweet after the five queries. *)
Theorem TweetPage_trailing_characters sign digits rest :
  In sign [""; "+"; "-"] ->
  digits <> "" ->
  all_decimal digits = true ->
  begins_with_decimal rest = false ->
  JS.hasHexPrefix (digits ++ rest)%string = false ->
  let segment := (sign ++ digits ++ rest)%string in
  let leading := sign_value sign * decimal_value digits in
  JS.parseInt segment = JS.roundInt leading /\
  JS.isNaN (JS.parseInt segment) = false /\
  (decimal_value digits < 2 ^ 53 -> JS.parseInt segment = JS.ofZ leading) /\
  forall db username userid,
    Page.TweetPage db segment username userid
    = Page.TweetPage db (sign ++ digits)%string username userid /\
    (exists log result,
       Page.TweetPage db segment username userid
       = (Page.SelectTweetData (JS.roundInt leading) :: log, result)) /\
    (forall tweetData rows user users,
       Page.selectTweetData db (JS.roundInt leading) = tweetData :: rows ->
       Page.selectUser db (tweets_userId tweetData) = user :: users ->
       Page.TweetPage db segment username userid
       = (five_queries (JS.roundInt leading) userid (tweets_userId tweetData),
          inr {| Page.tweet :=
                   tweet_view db (JS.roundInt leading) userid tweetData user;
                 Page.replies :=
                   Page.selectReplies db (JS.roundInt leading) userid |})).
Proof.
  intros Hs Hne Hd Hr Hx segment leading.
  assert (E : JS.parseInt segment = JS.roundInt leading)
    by now apply parseInt_leading_decimal.
  assert (Hnum : JS.isNaN (JS.parseInt segment) = false)
    by (rewrite E; apply roundInt_is_a_number).
  split; [exact E|]. split; [exact Hnum|]. split.
  - intros Hsmall. rewrite E. apply roundInt_exact.
    pose proof (decimal_from_nonneg digits 0 Hd (Z.le_refl 0)) as Hpos.
    fold (decimal_value digits) in Hpos. subst leading.
    unfold sign_value. destruct (String.eqb sign "-"); lia.
  - intros db username userid. split; [|split].
    + apply TweetPage_parseInt. rewrite E.
      rewrite <- (append_empty_r digits) at 1.
      rewrite (parseInt_leading_decimal sign digits "");
        try assumption; try reflexivity.
      rewrite append_empty_r. now apply hasHexPrefix_decimal.
    + rewrite <- E. now apply TweetPage_first_query.
    + intros tweetData rows user users Ht Hu.
      rewrite <- E in *. run_page. rewrite Hnum, Ht. run_page.
      rewrite Hu. reflexivity.
Qed.

Lemma TweetPage_trailing_characters_3abc :
  JS.parseInt "3abc" = JS.ofZ 3 /\
  Page.TweetPage sample "3abc" (Some "amy") 2
  = Page.TweetPage sample "3" (Some "amy") 2 /\
  Page.TweetPage sample "3abc" (Some "amy") 2
  = (five_queries (JS.ofZ 3) 2 2,
     inr {| Page.tweet :=
              tweet_view sample (JS.ofZ 3) 2
                (row_tweet 3 2 "second" (Some 1) 300) (row_user 2 "bob");
            Page.replies := Page.selectReplies sample (JS.ofZ 3) 2 |}).
Proof.
  assert (H : In "" [""; "+"; "-"]) by (now left).
  assert (Hne : "3" <> "") by discriminate.
  destruct (TweetPage_trailing_characters "" "3" "abc" H Hne
              eq_refl eq_refl eq_refl) as (_ & _ & Hval & Hpage).
  destruct (Hpage sample (Some "amy") 2) as (Hsame & _ & Hrender).
  split; [apply Hval; reflexivity|]. split; [exact Hsame|].
  exact (Hrender (row_tweet 3 2 "second" (Some 1) 300) []
           (row_user 2 "bob") [] eq_refl eq_refl).
Defined.

(* ================================================================== *)
(** ** The [replies] query: facts *)
(* ================================================================== *)

Section RepliesFacts.
Variable db : Database.
Variable userid : Z.

Lemma selectReplies_from_tweets n :
  Page.selectReplies db n userid
  = map Page.select_reply
      (Sql.order_by_asc (fun r => tweets_createdAt (Page.joined_tweet r))
         (filter (fun r => is_reply_to n (Page.joined_tweet r))
            (from_tweets db userid (tweetsTable db)))).
Proof. reflexivity. Qed.

(** The [WHERE] clause only looks at the tweet, so it can be applied to
    the tweets table before the joins. *)
Lemma from_tweets_where (p : Tweet -> bool) tweets :
  filter (fun r => p (Page.joined_tweet r)) (from_tweets db userid tweets)
  = from_tweets db userid (filter p tweets).
Proof.
  unfold from_tweets.
  etransitivity.
  { apply (left_join_where
             (fun x : Tweet * User * option (Z * Z) => p (fst (fst x)))). }
  f_equal. etransitivity.
  { apply (left_join_where (fun x : Tweet * User => p (fst x))). }
  f_equal. apply (inner_join_where p).
Qed.

Lemma likedSubquery_matches id :
  filter (fun liked : Z * bool => id =? fst liked)
    (Page.likedSubquery db userid)
  = map (fun l => (likes_tweetId l, true)) (viewer_like_rows db userid id).
Proof.
  unfold Page.likedSubquery, viewer_like_rows.
  induction (likesTable db) as [|l likes IH]; cbn [filter map];
    [reflexivity|].
  destruct (likes_userId l =? userid); cbn [filter map andb fst].
  - rewrite (Z.eqb_sym id). destruct (likes_tweetId l =? id);
      cbn [map]; now rewrite IH.
  - exact IH.
Qed.

Lemma no_like_rows_no_key id :
  like_rows db id = [] -> ~ In id (map likes_tweetId (likesTable db)).
Proof.
  unfold like_rows. intros Hnone Hin.
  apply in_map_iff in Hin as (l & Hid & Hl).
  assert (Hf : In l (filter (fun l => likes_tweetId l =? id) (likesTable db)))
    by (apply filter_In; split; [assumption | now apply Z.eqb_eq]).
  rewrite Hnone in Hf. destruct Hf.
Qed.

Lemma no_like_rows_no_count id :
  like_rows db id = [] ->
  filter (fun likes : Z * Z => id =? fst likes) (Page.likesSubquery db) = [].
Proof.
  intros H. apply group_count_absent. now apply no_like_rows_no_key.
Qed.

Lemma no_like_rows_not_liked id :
  like_rows db id = [] ->
  filter (fun liked : Z * bool => id =? fst liked)
    (Page.likedSubquery db userid) = [].
Proof.
  intros H. rewrite likedSubquery_matches.
  unfold viewer_like_rows, like_rows in *.
  induction (likesTable db) as [|l likes IH]; cbn [filter map] in *;
    [reflexivity|].
  destruct (likes_tweetId l =? id); [discriminate|].
  rewrite andb_false_r. now apply IH.
Qed.

(** Membership in the [FROM] clause. *)
Lemma In_from_tweets tweets t u likes liked :
  In (t, u, likes, liked) (from_tweets db userid tweets) <->
  In t tweets /\
  (In u (usersTable db) /\ tweets_userId t = users_id u) /\
  match likes with
  | None => filter (fun g : Z * Z => tweets_id t =? fst g)
              (Page.likesSubquery db) = []
  | Some g => In g (Page.likesSubquery db) /\ tweets_id t = fst g
  end /\
  match liked with
  | None => filter (fun g : Z * bool => tweets_id t =? fst g)
              (Page.likedSubquery db userid) = []
  | Some g => In g (Page.likedSubquery db userid) /\ tweets_id t = fst g
  end.
Proof.
  unfold from_tweets.
  rewrite In_left_join, In_left_join, In_inner_join. cbn [fst snd].
  rewrite Z.eqb_eq.
  destruct likes as [g|]; destruct liked as [g'|];
    rewrite ?Z.eqb_eq; tauto.
Qed.

(** When every tweet of the list has exactly one author row and the
    viewer at most one like row on it, the [FROM] clause yields one row
    per tweet, in the order of the list. *)
Lemma from_tweets_one_row_each tweets :
  (forall t, In t tweets ->
     List.length (author_rows db t) = 1%nat /\
     (List.length (viewer_like_rows db userid (tweets_id t)) <= 1)%nat) ->
  map Page.joined_tweet (from_tweets db userid tweets) = tweets.
Proof.
  intros H. unfold from_tweets.
  set (J1 := Sql.inner_join _ tweets (usersTable db)).
  set (J2 := Sql.left_join _ J1 (Page.likesSubquery db)).
  set (J3 := Sql.left_join _ J2 (Page.likedSubquery db userid)).
  assert (H1 : map fst J1 = tweets).
  { apply inner_join_one_to_one. intros t Ht. now apply H. }
  assert (H2 : map fst J2 = J1).
  { apply left_join_at_most_one. intros r _. apply group_count_one_row. }
  assert (H3 : map fst J3 = J2).
  { apply left_join_at_most_one. intros r Hr.
    rewrite likedSubquery_matches, length_map.
    apply H. rewrite <- H1.
    apply in_map_iff. exists (fst r). split; [reflexivity|].
    rewrite <- H2. now apply in_map. }
  transitivity (map fst (map fst (map fst J3))).
  - rewrite !map_map. reflexivity.
  - now rewrite H3, H2, H1.
Qed.

(** The reply rows are ascending in [createdAt], whatever the tables
    hold. *)
Lemma selectReplies_ascending n :
  StronglySorted Z.le
    (map Page.reply_createdAt (Page.selectReplies db n userid)).
Proof.
  rewrite selectReplies_from_tweets, map_map.
  change (fun x => Page.reply_createdAt (Page.select_reply x))
    with (fun r => tweets_createdAt (Page.joined_tweet r)).
  apply StronglySorted_map_key, order_by_asc_sorted.
Qed.

(** Every reply row comes from a row of the join over the replies. *)
Lemma In_selectReplies n r :
  In r (Page.selectReplies db n userid) <->
  exists row,
    In row (from_tweets db userid (filter (is_reply_to n) (tweetsTable db)))
    /\ r = Page.select_reply row.
Proof.
  rewrite selectReplies_from_tweets, from_tweets_where, in_map_iff.
  split.
  - intros (row & Hr & Hin). exists row. split; [|now symmetry].
    eapply Permutation_in; [apply order_by_asc_perm | exact Hin].
  - intros (row & Hin & Hr). exists row. split; [now symmetry|].
    eapply Permutation_in;
      [apply Permutation_sym, order_by_asc_perm | exact Hin].
Qed.

(** With one author row per reply and at most one like row of the viewer
    per reply, the output is the replies themselves, sorted. *)
Lemma selectReplies_columns n :
  (forall t, In t (tweetsTable db) -> is_reply_to n t = true ->
     List.length (author_rows db t) = 1%nat /\
     (List.length (viewer_like_rows db userid (tweets_id t)) <= 1)%nat) ->
  map reply_columns (Page.selectReplies db n userid)
  = map tweet_columns
      (Sql.order_by_asc tweets_createdAt
         (filter (is_reply_to n) (tweetsTable db))).
Proof.
  intros H.
  rewrite selectReplies_from_tweets, from_tweets_where, map_map.
  change (fun x => reply_columns (Page.select_reply x))
    with (fun r => tweet_columns (Page.joined_tweet r)).
  rewrite <- map_map with (f := Page.joined_tweet) (g := tweet_columns).
  rewrite (map_order_by_asc tweets_createdAt Page.joined_tweet).
  rewrite from_tweets_one_row_each; [reflexivity|].
  intros t Ht. apply filter_In in Ht as [Ht Hr]. now apply H.
Qed.
End RepliesFacts.

(** The root tweet's query counts the rows the scan of the grouped
    subquery counts. *)
Lemma selectLikes_count db id :
  Z.of_nat (List.length (Page.selectLikes db (JS.ofZ id)))
  = count_for (Page.likesSubquery db) id.
Proof.
  unfold Page.selectLikes, Page.likesSubquery.
  rewrite length_map, count_for_group_count. do 2 f_equal.
  induction (likesTable db) as [|l likes IH]; cbn [map filter];
    [reflexivity|].
  rewrite eq_num_ofZ.
  destruct (likes_tweetId l =? id); cbn [List.length]; now rewrite IH.
Qed.

(** The [likes] column of a reply row is the grouped count of its tweet,
    NULL standing for an absent group. *)
Lemma reply_likes_grouped db tweet_id_num userid r :
  In r (Page.selectReplies db tweet_id_num userid) ->
  count_for (Page.likesSubquery db) (Page.reply_id r)
  = match Page.reply_likes r with
    | Some likes => likes
    | None => 0
    end.
Proof.
  intros Hr.
  apply In_selectReplies in Hr as ([[[t a] likes] liked] & Hrow & ->).
  apply In_from_tweets in Hrow as (_ & _ & Hl & _).
  cbn [Page.select_reply Page.reply_likes Page.reply_id Page.joined_likes
       Page.joined_tweet fst snd].
  unfold count_for.
  destruct likes as [g|]; cbn [option_map].
  - destruct Hl as [Hg Hk].
    assert (Hf : In g (filter (fun g : Z * Z => tweets_id t =? fst g)
                         (Page.likesSubquery db)))
      by (apply filter_In; split; [assumption | now apply Z.eqb_eq]).
    pose proof (group_count_one_row (map likes_tweetId (likesTable db))
                  (tweets_id t)) as Hone.
    fold (Page.likesSubquery db) in Hone.
    destruct (filter _ (Page.likesSubquery db)) as [|g0 [|g1 rest]];
      cbn in Hf, Hone.
    + destruct Hf.
    + destruct Hf as [->|[]]. reflexivity.
    + lia.
  - now rewrite Hl.
Qed.

(** C9. For any likes table and tweet identifier, the number of like rows
    the page materialises for the root tweet ([likes.length]) is the count
    the grouped subquery [likes_count] holds for that identifier, 0 when
    the group is absent; it is therefore also what a reply row with that
    identifier carries in its [likes] column. *)
Theorem numLikes_is_grouped_count db id :
  Z.of_nat (List.length (Page.selectLikes db (JS.ofZ id)))
  = count_for (Page.likesSubquery db) id /\
  forall tweet_id_num userid r,
    In r (Page.selectReplies db tweet_id_num userid) ->
    Page.reply_id r = id ->
    Z.of_nat (List.length (Page.selectLikes db (JS.ofZ id)))
    = match Page.reply_likes r with
      | Some likes => likes
      | None => 0
      end.
Proof.
  split; [apply selectLikes_count|].
  intros tweet_id_num userid r Hr <-.
  rewrite selectLikes_count. now apply (reply_likes_grouped db tweet_id_num userid).
Qed.

Lemma numLikes_is_grouped_count_sample :
  Z.of_nat (List.length (Page.selectLikes sample (JS.ofZ 3))) = 2 /\
  count_for (Page.likesSubquery sample) 3 = 2.
Proof.
  destruct (numLikes_is_grouped_count sample 3) as [Hcount Hreply].
  split; [reflexivity|].
  rewrite <- Hcount. reflexivity.
Defined.

Lemma filter_and_nil {A} (p q : A -> bool) (l : list A) :
  filter p l = [] -> filter (fun x => p x && q x) l = [].
Proof.
  induction l as [|x l IH]; cbn [filter]; [reflexivity|].
  destruct (p x); [discriminate|]. exact IH.
Qed.

(** A selection of rows with distinct identifiers has distinct
    identifiers. *)
Lemma distinct_ids_selected (keep : Tweet -> bool) (tweets : list Tweet) :
  NoDup (map tweets_id tweets) ->
  NoDup (map tweets_id (filter keep tweets)).
Proof.
  induction tweets as [|t tweets IH]; cbn [map filter]; intros Hids;
    [constructor|].
  apply NoDup_cons_iff in Hids as [Hfresh Hids].
  destruct (keep t); cbn [map]; [|now apply IH].
  apply NoDup_cons_iff. split; [|now apply IH].
  intros Hin. apply Hfresh.
  apply in_map_iff in Hin as (t' & Hid & Hin).
  apply filter_In in Hin as [Hin _].
  rewrite <- Hid. now apply in_map.
Qed.

(** At most one like per (user, tweet) pair leaves any viewer at most one
    like row on any tweet. *)
Lemma unique_likes_viewer db userid id :
  NoDup (map (fun l => (likes_userId l, likes_tweetId l)) (likesTable db)) ->
  (List.length (viewer_like_rows db userid id) <= 1)%nat.
Proof.
  unfold viewer_like_rows.
  induction (likesTable db) as [|l likes IH]; cbn [map filter]; intros H.
  - cbn. lia.
  - inversion H as [|? ? Hl Hlikes]; subst.
    destruct ((likes_userId l =? userid) && (likes_tweetId l =? id)) eqn:E;
      [|now apply IH].
    apply andb_true_iff in E as [Eu Et]. apply Z.eqb_eq in Eu, Et.
    assert (Hnone : filter (fun l => (likes_userId l =? userid)
                                     && (likes_tweetId l =? id)) likes = []).
    { destruct (filter _ likes) as [|l' rest] eqn:F; [reflexivity|].
      exfalso. apply Hl.
      assert (Hin : In l' (filter (fun l => (likes_userId l =? userid)
                                            && (likes_tweetId l =? id)) likes))
        by (rewrite F; now left).
      apply filter_In in Hin as [Hin E].
      apply andb_true_iff in E as [Eu' Et']. apply Z.eqb_eq in Eu', Et'.
      apply in_map_iff. exists l'. split; [|assumption]. congruence. }
    rewrite Hnone. cbn. lia.
Qed.

(** C4, as stated, fails on the reply rows: reply 2 of the sample has no
    like row, and the view carries it with [likes] and [liked] NULL, not 0
    and false. *)
Lemma reply_without_likes_is_null :
  exists log view r,
    Page.TweetPage sample "1" (Some "amy") 2 = (log, inr view) /\
    In r (Page.replies view) /\
    Page.reply_id r = 2 /\
    like_rows sample (Page.reply_id r) = [] /\
    Page.reply_likes r <> Some 0 /\
    Page.reply_liked r <> Some false.
Proof.
  eexists. eexists.
  exists {| Page.reply_id := 2; Page.reply_content := "first";
            Page.reply_replyToTweetId := Some 1;
            Page.reply_username := "bob"; Page.reply_userid := 2;
            Page.reply_likes := None; Page.reply_createdAt := 200;
            Page.reply_liked := None |}.
  split; [reflexivity|]. split; [now left|].
  repeat split; try reflexivity; discriminate.
Qed.

(** C4, amended. In a rendered view, a root tweet without like rows has
    [likes] 0 and [liked] false, for every viewer; a reply row whose tweet
    has no like rows has [likes] and [liked] absent (NULL); and every
    direct reply without like rows whose author has a row does appear
    among the replies, thanks to the left joins. *)
Theorem zero_likes_view db tweet_id username userid log view :
  Page.TweetPage db tweet_id username userid = (log, inr view) ->
  (like_rows db (Page.tweet_id (Page.tweet view)) = [] ->
   Page.tweet_likes (Page.tweet view) = 0 /\
   Page.tweet_liked (Page.tweet view) = false) /\
  (forall r, In r (Page.replies view) ->
     like_rows db (Page.reply_id r) = [] ->
     Page.reply_likes r = None /\ Page.reply_liked r = None) /\
  (forall t, In t (tweetsTable db) ->
     is_reply_to (JS.parseInt tweet_id) t = true ->
     author_rows db t <> [] ->
     like_rows db (tweets_id t) = [] ->
     exists r, In r (Page.replies view) /\
               reply_columns r = tweet_columns t /\
               Page.reply_likes r = None /\ Page.reply_liked r = None).
Proof.
  intros Hview.
  apply TweetPage_rendered in Hview
    as (td & rows & u & users & Ht & Hu & Hid & Hlikes & Hliked & Hreplies).
  assert (Htd : Sql.eq_num (tweets_id td) (JS.parseInt tweet_id) = true).
  { assert (Hin : In td (Page.selectTweetData db (JS.parseInt tweet_id)))
      by (rewrite Ht; now left).
    now apply filter_In in Hin. }
  split; [|split].
  - rewrite Hid, Hlikes, Hliked. intros Hnone.
    assert (E : filter (fun l => Sql.eq_num (likes_tweetId l)
                                   (JS.parseInt tweet_id)) (likesTable db)
                = []).
    { rewrite <- Hnone. unfold like_rows. apply filter_ext.
      intros l. now apply eq_num_same. }
    unfold Page.selectLikes, Page.selectLiked.
    rewrite E, (filter_and_nil _ _ _ E). split; reflexivity.
  - rewrite Hreplies. intros r Hr Hnone.
    apply In_selectReplies in Hr as ([[[t a] likes] liked] & Hrow & ->).
    apply In_from_tweets in Hrow as (_ & _ & Hl & Hv).
    cbn in Hnone. cbn [Page.select_reply Page.reply_likes Page.reply_liked
                       Page.joined_likes Page.joined_liked fst snd].
    split.
    + destruct likes as [g|]; [|reflexivity]. destruct Hl as [Hg Hk].
      exfalso.
      assert (Hf : In g (filter (fun g : Z * Z => tweets_id t =? fst g)
                           (Page.likesSubquery db)))
        by (apply filter_In; split; [assumption | now apply Z.eqb_eq]).
      rewrite (no_like_rows_no_count db _ Hnone) in Hf. destruct Hf.
    + destruct liked as [g|]; [|reflexivity]. destruct Hv as [Hg Hk].
      exfalso.
      assert (Hf : In g (filter (fun g : Z * bool => tweets_id t =? fst g)
                           (Page.likedSubquery db userid)))
        by (apply filter_In; split; [assumption | now apply Z.eqb_eq]).
      rewrite (no_like_rows_not_liked db userid _ Hnone) in Hf. destruct Hf.
  - rewrite Hreplies. intros t Hin Hr Hauthor Hnone.
    destruct (author_rows db t) as [|a authors] eqn:Ha; [congruence|].
    assert (Hain : In a (author_rows db t)) by (rewrite Ha; now left).
    apply filter_In in Hain as [Hain Hon]. apply Z.eqb_eq in Hon.
    exists (Page.select_reply (t, a, None, None)).
    split; [|repeat split].
    apply In_selectReplies. eexists. split; [|reflexivity].
    apply In_from_tweets. split; [apply filter_In; now split|].
    split; [now split|]. split.
    + now apply no_like_rows_no_count.
    + now apply no_like_rows_not_liked.
Qed.

Lemma zero_likes_view_sample :
  exists log view,
    Page.TweetPage sample "1" (Some "amy") 2 = (log, inr view) /\
    Page.tweet_likes (Page.tweet view) = 0 /\
    Page.tweet_liked (Page.tweet view) = false.
Proof.
  eexists. eexists. split; [reflexivity|].
  apply (zero_likes_view sample "1" (Some "amy") 2 _ _ eq_refl).
  reflexivity.
Defined.

(** C5, as stated, fails without assumptions on the other two tables.  In
    [double_liked] the replies of tweet 1 were created at 200 < 300 < 400,
    and the viewer's two like rows on reply 3 make it come out twice; in
    [orphaned] reply 5 names a user without a row and the inner join drops
    it. *)
Lemma replies_duplicated_or_dropped :
  map tweets_id (filter (is_reply_to (JS.ofZ 1)) (tweetsTable double_liked))
  = [2; 3; 4] /\
  map Page.reply_id (Page.selectReplies double_liked (JS.ofZ 1) 2)
  = [2; 3; 3; 4] /\
  map tweets_id (filter (is_reply_to (JS.ofZ 1)) (tweetsTable orphaned))
  = [5] /\
  Page.selectReplies orphaned (JS.ofZ 1) 1 = [].
Proof. repeat split; reflexivity. Qed.

(** C5, amended. The reply query returns only tweets whose parent is the
    requested tweet, in ascending order of creation time.  Provided every
    direct reply of the requested tweet names exactly one user row and the
    viewer holds at most one like row on it, it returns exactly those
    tweets; replies created at t1 < t2 < t3 then come out in that order,
    however they are stored. *)
Theorem selectReplies_exact_ascending db tweet_id_num userid :
  let out := Page.selectReplies db tweet_id_num userid in
  StronglySorted Z.le (map Page.reply_createdAt out) /\
  (forall r, In r out ->
     Sql.eq_num_nullable (Page.reply_replyToTweetId r) tweet_id_num = true) /\
  ((forall t, In t (tweetsTable db) -> is_reply_to tweet_id_num t = true ->
      List.length (author_rows db t) = 1%nat /\
      (List.length (viewer_like_rows db userid (tweets_id t)) <= 1)%nat) ->
   Permutation (map reply_columns out)
     (map tweet_columns
        (filter (is_reply_to tweet_id_num) (tweetsTable db))) /\
   forall t1 t2 t3,
     Permutation (filter (is_reply_to tweet_id_num) (tweetsTable db))
       [t1; t2; t3] ->
     tweets_createdAt t1 < tweets_createdAt t2 < tweets_createdAt t3 ->
     map reply_columns out = map tweet_columns [t1; t2; t3]).
Proof.
  intros out. subst out. split; [apply selectReplies_ascending|]. split.
  - intros r Hr.
    apply In_selectReplies in Hr as ([[[t a] likes] liked] & Hrow & ->).
    apply In_from_tweets in Hrow as (Ht & _).
    now apply filter_In in Ht.
  - intros H.
    rewrite (selectReplies_columns db userid tweet_id_num H). split.
    + apply Permutation_map, order_by_asc_perm.
    + intros t1 t2 t3 Hperm Hlt. f_equal.
      apply (ascending_arrangement_unique tweets_createdAt).
      * repeat constructor; lia.
      * apply order_by_asc_sorted.
      * eapply perm_trans; [apply Permutation_sym, Hperm|].
        apply Permutation_sym, order_by_asc_perm.
Qed.

Lemma selectReplies_exact_ascending_sample :
  map reply_columns (Page.selectReplies sample (JS.ofZ 1) 2)
  = [(2, "first", Some 1, 200); (3, "second", Some 1, 300);
     (4, "third", Some 1, 400)].
Proof.
  assert (H : forall t, In t (tweetsTable sample) ->
                is_reply_to (JS.ofZ 1) t = true ->
                List.length (author_rows sample t) = 1%nat /\
                (List.length (viewer_like_rows sample 2 (tweets_id t)) <= 1)%nat).
  { intros t Hin _. cbn in Hin.
    repeat (destruct Hin as [<-|Hin]); try contradiction;
      split; cbn; lia. }
  destruct (selectReplies_exact_ascending sample (JS.ofZ 1) 2)
    as (_ & _ & Hexact).
  destruct (Hexact H) as (_ & Horder).
  apply (Horder (row_tweet 2 2 "first" (Some 1) 200)
                (row_tweet 3 2 "second" (Some 1) 300)
                (row_tweet 4 1 "third" (Some 1) 400)).
  - change (filter (is_reply_to (JS.ofZ 1)) (tweetsTable sample))
      with [row_tweet 4 1 "third" (Some 1) 400;
            row_tweet 2 2 "first" (Some 1) 200;
            row_tweet 3 2 "second" (Some 1) 300].
    eapply perm_trans; [apply perm_swap | apply perm_skip, perm_swap].
  - cbn. lia.
Defined.

(** C10, as stated, fails when a reply's author has no row.
    [orphaned_reply] holds no two likes of one user on one tweet (it holds
    none) and tweet 5 is a direct reply to tweet 1; the page of tweet 1
    renders, its fifth query is the reply query, and reply 5 is not among
    the rows of the view: the inner join with the users dropped it. *)
Lemma reply_of_missing_author_absent :
  NoDup (map (fun l => (likes_userId l, likes_tweetId l))
           (likesTable orphaned_reply)) /\
  map tweets_id
    (filter (is_reply_to (JS.ofZ 1)) (tweetsTable orphaned_reply)) = [5] /\
  exists view,
    Page.TweetPage orphaned_reply "1" (Some "amy") 1
    = (five_queries (JS.ofZ 1) 1 1, inr view) /\
    Page.tweet_id (Page.tweet view) = 1 /\
    count_occ Z.eq_dec (map Page.reply_id (Page.replies view)) 5 = 0%nat.
Proof.
  split; [constructor|]. split; [reflexivity|].
  eexists. split; [reflexivity|]. split; reflexivity.
Qed.

(** C10, amended. Under the precondition that the likes table holds at
    most one like per (user, tweet) pair, and provided every direct reply
    names exactly one user row, the rows of the reply query are, up to
    their order, the direct replies themselves, one row each: as many rows
    as replies, the viewer-liked subquery duplicates none.  With unique
    tweet identifiers, each reply's identifier occurs exactly once in the
    output. *)
Theorem selectReplies_one_row_per_reply db tweet_id_num userid :
  NoDup (map (fun l => (likes_userId l, likes_tweetId l)) (likesTable db)) ->
  (forall t, In t (tweetsTable db) -> is_reply_to tweet_id_num t = true ->
     List.length (author_rows db t) = 1%nat) ->
  let out := Page.selectReplies db tweet_id_num userid in
  Permutation (map reply_columns out)
    (map tweet_columns
       (filter (is_reply_to tweet_id_num) (tweetsTable db))) /\
  List.length out
  = List.length (filter (is_reply_to tweet_id_num) (tweetsTable db)) /\
  (NoDup (map tweets_id (tweetsTable db)) ->
   forall t, In t (tweetsTable db) -> is_reply_to tweet_id_num t = true ->
     count_occ Z.eq_dec (map Page.reply_id out) (tweets_id t) = 1%nat).
Proof.
  intros Hlikes Hauthor out.
  assert (Hcols : Permutation (map reply_columns out)
                    (map tweet_columns
                       (filter (is_reply_to tweet_id_num) (tweetsTable db)))).
  { subst out. rewrite (selectReplies_columns db userid tweet_id_num).
    - apply Permutation_map, order_by_asc_perm.
    - intros t Hin Hr. split.
      + now apply Hauthor.
      + now apply unique_likes_viewer. }
  assert (Hperm : Permutation (map Page.reply_id out)
                    (map tweets_id
                       (filter (is_reply_to tweet_id_num) (tweetsTable db)))).
  { assert (E : map Page.reply_id out
                = map (fun c : Z * string * option Z * Z => fst (fst (fst c)))
                    (map reply_columns out))
      by (now rewrite map_map).
    assert (E' : map tweets_id
                   (filter (is_reply_to tweet_id_num) (tweetsTable db))
                 = map (fun c : Z * string * option Z * Z =>
                          fst (fst (fst c)))
                     (map tweet_columns
                        (filter (is_reply_to tweet_id_num) (tweetsTable db))))
      by (now rewrite map_map).
    rewrite E, E'. now apply Permutation_map. }
  split; [exact Hcols|]. split.
  - rewrite <- (length_map reply_columns), <- (length_map tweet_columns).
    now apply Permutation_length.
  - intros Hids t Hin Hr.
    apply NoDup_count_occ'.
    + eapply Permutation_NoDup; [apply Permutation_sym, Hperm|].
      now apply distinct_ids_selected.
    + eapply Permutation_in; [apply Permutation_sym, Hperm|].
      apply in_map, filter_In. now split.
Qed.

Lemma selectReplies_one_row_per_reply_sample :
  List.length (Page.selectReplies sample (JS.ofZ 1) 2) = 3%nat /\
  count_occ Z.eq_dec
    (map Page.reply_id (Page.selectReplies sample (JS.ofZ 1) 2)) 3 = 1%nat.
Proof.
  assert (Hlikes : NoDup (map (fun l => (likes_userId l, likes_tweetId l))
                            (likesTable sample))).
  { cbn. repeat constructor; cbn; intuition congruence. }
  assert (Hauthor : forall t, In t (tweetsTable sample) ->
                      is_reply_to (JS.ofZ 1) t = true ->
                      List.length (author_rows sample t) = 1%nat).
  { intros t Hin _. cbn in Hin.
    repeat (destruct Hin as [<-|Hin]); try contradiction; reflexivity. }
  destruct (selectReplies_one_row_per_reply sample (JS.ofZ 1) 2 Hlikes Hauthor)
    as (_ & Hlen & Hcount).
  split; [exact Hlen|].
  apply (Hcount ltac:(cbn; repeat constructor; cbn; intuition congruence)
           (row_tweet 3 2 "second" (Some 1) 300)).
  - cbn. tauto.
  - reflexivity.
Defined.

(* ================================================================== *)
(** ** The schema: facts *)
(* ================================================================== *)

Section SchemaFacts.

Lemma number_spec v : z.number v = true <-> a_number v.
Proof.
  unfold z.number, a_number. split.
  - destruct v as [[| |n| | |]|]; try discriminate.
    intros H. exists n. split; [reflexivity|].
    intros ->. discriminate.
  - intros (n & -> & Hn). destruct n; [congruence | reflexivity..].
Qed.

Lemma positive_number_spec v :
  z.positive z.number v = true <-> a_positive_number v.
Proof.
  unfold z.positive, z.number, a_positive_number. split.
  - destruct v as [[| |n| | |]|]; try discriminate.
    intros H. apply andb_true_iff in H as [_ H]. now exists n.
  - intros (n & -> & Hn). rewrite Hn.
    destruct n; [discriminate | reflexivity..].
Qed.

Lemma optional_spec (s : z.schema) (P : option Json.value -> Prop) v :
  (s v = true <-> P v) ->
  (z.optional s v = true <-> absent_or P v).
Proof.
  unfold z.optional, absent_or. intros H.
  destruct v as [x|]; [|tauto].
  rewrite H. split; [tauto|]. intros [?|?]; [discriminate | assumption].
Qed.

Lemma content_spec v :
  z.max 280 (z.min 1 z.string) v = true <-> a_string_within 1 280 v.
Proof.
  unfold z.max, z.min, z.string, a_string_within. split.
  - destruct v as [[| | |s| |]|]; try discriminate.
    intros H. apply andb_true_iff in H as [H Hmax].
    apply andb_true_iff in H as [_ Hmin].
    apply Z.leb_le in Hmax, Hmin. exists s. split; [reflexivity | lia].
  - intros (s & -> & Hlo & Hhi).
    apply Z.leb_le in Hlo, Hhi. now rewrite Hlo, Hhi.
Qed.

(** What [postTweetRequestSchema.parse] lets through. *)
Lemma parse_accepted data :
  z.parse Route.postTweetRequestSchema data = true <-> accepted_shape data.
Proof.
  unfold accepted_shape.
  destruct data as [| | | | |properties];
    try (split; [discriminate | intros [[? ?] _]; discriminate]).
  unfold z.parse, Route.postTweetRequestSchema, z.object.
  cbn [forallb fst snd Json.get].
  rewrite andb_true_r, !andb_true_iff.
  rewrite number_spec, content_spec.
  rewrite !(optional_spec _ _ _ (number_spec _)).
  rewrite (optional_spec _ _ _ (positive_number_spec _)).
  split; [intros; split; [eauto | tauto] | tauto].
Qed.

Lemma integer_is_number v : an_integer v = true -> a_number v.
Proof.
  destruct v as [[| |n| | |]|]; try discriminate.
  intros H. exists n. split; [reflexivity|]. intros ->. discriminate.
Qed.

Lemma positive_integer_is_positive_number v :
  a_positive_integer v = true -> a_positive_number v.
Proof.
  destruct v as [[| |n| | |]|]; try discriminate.
  intros H. apply andb_true_iff in H as [_ H]. now exists n.
Qed.

Lemma if_present_absent_or test (P : option Json.value -> Prop) v :
  (test v = true -> P v) -> if_present test v = true -> absent_or P v.
Proof.
  unfold if_present, absent_or. destruct v; [|now left].
  intros H Ht. right. now apply H.
Qed.

(** Every body of the specified shape is accepted. *)
Lemma declared_shape_accepted data :
  declared_shape data = true -> accepted_shape data.
Proof.
  unfold declared_shape, accepted_shape.
  destruct data as [| | | | |properties]; try discriminate.
  rewrite !andb_true_iff. intros ((((Hu & Hc) & Hs) & He) & Hr).
  split; [eauto|].
  split; [now apply integer_is_number|].
  split.
  { destruct (Json.get (Json.Object properties) "content")
      as [[| | |s| |]|]; try discriminate.
    apply andb_true_iff in Hc as [Hlo Hhi]. apply Z.leb_le in Hlo, Hhi.
    exists s. split; [reflexivity | lia]. }
  split; [|split].
  - eapply if_present_absent_or; [apply integer_is_number | exact Hs].
  - eapply if_present_absent_or; [apply integer_is_number | exact He].
  - eapply if_present_absent_or;
      [apply positive_integer_is_positive_number | exact Hr].
Qed.

(** A [content] outside 1..280 fails the schema. *)
Lemma parse_content_length data s :
  Json.get data "content" = Some (Json.Str s) ->
  (String.length s = 0%nat \/ (280 < String.length s)%nat) ->
  z.parse Route.postTweetRequestSchema data = false.
Proof.
  intros Hc Hlen.
  destruct (z.parse Route.postTweetRequestSchema data) eqn:E;
    [|reflexivity].
  apply parse_accepted in E as (_ & _ & (s' & Hs' & Hrange) & _).
  rewrite Hc in Hs'. inversion Hs'; subst s'. lia.
Qed.
End SchemaFacts.

(* ================================================================== *)
(** ** The handler: facts *)
(* ================================================================== *)

Section HandlerFacts.
Variable Store : Type.
Variable insert_returning :
  Store -> Route.Values -> Store * (string + list Z).

(** The three ways [POST] answers a body it could read. *)
Lemma POST_invalid data store :
  z.parse Route.postTweetRequestSchema data = false ->
  Route.POST Store insert_returning (Some data) store
  = (invalid_request, [], store).
Proof. intros H. unfold Route.POST. now rewrite H. Qed.

Lemma POST_inserted data store store' tweetid :
  z.parse Route.postTweetRequestSchema data = true ->
  insert_returning store (Route.destructure data) = (store', inr tweetid) ->
  Route.POST Store insert_returning (Some data) store
  = (ok tweetid, [Route.InsertTweet (Route.destructure data)], store').
Proof.
  intros H Hi. unfold Route.POST. rewrite H. cbn [negb]. cbv zeta.
  now rewrite Hi.
Qed.

Lemma POST_failed data store store' cause :
  z.parse Route.postTweetRequestSchema data = true ->
  insert_returning store (Route.destructure data) = (store', inl cause) ->
  Route.POST Store insert_returning (Some data) store
  = (something_went_wrong,
     [Route.InsertTweet (Route.destructure data)], store').
Proof.
  intros H Hi. unfold Route.POST. rewrite H. cbn [negb]. cbv zeta.
  now rewrite Hi.
Qed.

(** A valid body makes the handler send one insert, whatever the store
    answers. *)
Lemma POST_valid_operations data store :
  z.parse Route.postTweetRequestSchema data = true ->
  snd (fst (Route.POST Store insert_returning (Some data) store))
  = [Route.InsertTweet (Route.destructure data)].
Proof.
  intros H.
  destruct (insert_returning store (Route.destructure data))
    as [store' [cause|tweetid]] eqn:Hi.
  - now rewrite (POST_failed _ _ _ _ H Hi).
  - now rewrite (POST_inserted _ _ _ _ H Hi).
Qed.
End HandlerFacts.

(** C2, as stated, fails on numbers that are not integers: the body
    [{ userId: 1.5, content: "hi" }] is outside the specified shape, passes
    the schema, and reaches the insert. *)
Lemma fractional_userId_accepted :
  declared_shape (payload (JS.Fin (3 # 2)) "hi") = false /\
  z.parse Route.postTweetRequestSchema (payload (JS.Fin (3 # 2)) "hi") = true /\
  Route.POST Route.MemStore Route.mem_insert
    (Some (payload (JS.Fin (3 # 2)) "hi")) store_online
  = (ok [5],
     [Route.InsertTweet (Route.destructure (payload (JS.Fin (3 # 2)) "hi"))],
     {| Route.online := true; Route.next_id := 6;
        Route.inserted :=
          [(5, Route.destructure (payload (JS.Fin (3 # 2)) "hi"))] |}).
Proof. repeat split; reflexivity. Qed.

(** C2, amended. The schema accepts exactly the objects whose [userId] is
    a number, whose [content] is a string of 1 to 280 code units, whose
    [timestart] and [timeend] are absent or numbers, and whose
    [replyToTweetId] is absent or a positive number; integrality is not
    tested, so every body of the specified shape is accepted, and so are
    bodies with fractional numbers.  Every body the schema rejects is
    answered with status 400 and no insert. *)
Theorem postTweetRequestSchema_accepts data :
  (z.parse Route.postTweetRequestSchema data = true <-> accepted_shape data) /\
  (declared_shape data = true ->
   z.parse Route.postTweetRequestSchema data = true) /\
  (forall Store insert_returning store,
     z.parse Route.postTweetRequestSchema data = false ->
     Route.POST Store insert_returning (Some data) store
     = (invalid_request, [], store)).
Proof.
  split; [apply parse_accepted|]. split.
  - intros H. now apply parse_accepted, declared_shape_accepted.
  - intros Store insert_returning store. apply POST_invalid.
Qed.

Lemma postTweetRequestSchema_accepts_sample :
  accepted_shape (payload (JS.ofZ 1) "hi") /\
  Route.POST Route.MemStore Route.mem_insert
    (Some (payload (JS.ofZ 1) "")) store_online
  = (invalid_request, [], store_online).
Proof.
  split.
  - apply (postTweetRequestSchema_accepts (payload (JS.ofZ 1) "hi")).
    reflexivity.
  - apply (postTweetRequestSchema_accepts (payload (JS.ofZ 1) "")).
    reflexivity.
Defined.

(** C3, as stated, fails when the store refuses the insert: a valid body
    with a two-character content, sent while the store is offline, is
    answered with status 500. *)
Lemma valid_payload_insert_fails :
  z.parse Route.postTweetRequestSchema (payload (JS.ofZ 1) "hi") = true /\
  Route.POST Route.MemStore Route.mem_insert
    (Some (payload (JS.ofZ 1) "hi")) store_offline
  = (something_went_wrong,
     [Route.InsertTweet (Route.destructure (payload (JS.ofZ 1) "hi"))],
     store_offline).
Proof. split; reflexivity. Qed.

(** C3, amended. A body whose content is a string of 1 to 280 code units,
    and which otherwise conforms to the schema, makes the handler send
    exactly one insert, and when that insert returns, the answer is status
    200 with the identifier rows it returned.  A body whose content is
    empty or longer than 280 code units is answered with status 400 and
    "Invalid request", no insert is sent and the store is untouched. *)
Theorem POST_content_length Store insert_returning :
  (forall data s store,
     otherwise_conforming data ->
     Json.get data "content" = Some (Json.Str s) ->
     (1 <= String.length s <= 280)%nat ->
     snd (fst (Route.POST Store insert_returning (Some data) store))
     = [Route.InsertTweet (Route.destructure data)] /\
     forall store' tweetid,
       insert_returning store (Route.destructure data)
       = (store', inr tweetid) ->
       Route.POST Store insert_returning (Some data) store
       = (ok tweetid, [Route.InsertTweet (Route.destructure data)], store')) /\
  (forall data s store,
     Json.get data "content" = Some (Json.Str s) ->
     String.length s = 0%nat \/ (280 < String.length s)%nat ->
     Route.POST Store insert_returning (Some data) store
     = (invalid_request, [], store)).
Proof.
  split.
  - intros data s store (Hobj & Hu & Hs & He & Hr) Hc Hlen.
    assert (H : z.parse Route.postTweetRequestSchema data = true).
    { apply parse_accepted. unfold accepted_shape.
      repeat split; try assumption.
      exists s. split; [assumption | lia]. }
    split.
    + now apply POST_valid_operations.
    + intros store' tweetid Hi. now apply POST_inserted.
  - intros data s store Hc Hlen. apply POST_invalid.
    now apply (parse_content_length data s).
Qed.

Lemma POST_content_length_sample :
  Route.POST Route.MemStore Route.mem_insert
    (Some (payload (JS.ofZ 1) "a")) store_online
  = (ok [5],
     [Route.InsertTweet (Route.destructure (payload (JS.ofZ 1) "a"))],
     {| Route.online := true; Route.next_id := 6;
        Route.inserted :=
          [(5, Route.destructure (payload (JS.ofZ 1) "a"))] |}) /\
  Route.POST Route.MemStore Route.mem_insert
    (Some (payload (JS.ofZ 1) (filler 280))) store_online
  = (ok [5],
     [Route.InsertTweet (Route.destructure (payload (JS.ofZ 1) (filler 280)))],
     {| Route.online := true; Route.next_id := 6;
        Route.inserted :=
          [(5, Route.destructure (payload (JS.ofZ 1) (filler 280)))] |}) /\
  Route.POST Route.MemStore Route.mem_insert
    (Some (payload (JS.ofZ 1) (filler 281))) store_online
  = (invalid_request, [], store_online) /\
  Route.POST Route.MemStore Route.mem_insert
    (Some (payload (JS.ofZ 1) "")) store_online
  = (invalid_request, [], store_online).
Proof.
  destruct (POST_content_length Route.MemStore Route.mem_insert)
    as [Hvalid Hlen].
  assert (Hother : forall content,
            otherwise_conforming (payload (JS.ofZ 1) content)).
  { intros content. repeat split.
    - eexists. reflexivity.
    - exists (JS.ofZ 1). split; [reflexivity | discriminate].
    - now left.
    - now left.
    - now left. }
  split; [|split; [|split]].
  - destruct (Hvalid (payload (JS.ofZ 1) "a") "a" store_online
                (Hother "a") eq_refl) as (_ & Hok).
    + cbn. lia.
    + apply Hok. reflexivity.
  - destruct (Hvalid (payload (JS.ofZ 1) (filler 280)) (filler 280)
                store_online (Hother (filler 280)) eq_refl) as (_ & Hok).
    + vm_compute. lia.
    + apply Hok. reflexivity.
  - apply (Hlen _ (filler 281)); [reflexivity|]. right. vm_compute. lia.
  - apply (Hlen _ ""); [reflexivity|]. now left.
Defined.

(** C7. When a body passes the schema and the insert throws, whatever the
    cause, the answer is status 500 with the fixed message "Something went
    wrong", in which the cause does not appear; a body that fails the
    schema is never answered that way, it gets status 400. *)
Theorem POST_insert_failure Store insert_returning data store store' cause :
  z.parse Route.postTweetRequestSchema data = true ->
  insert_returning store (Route.destructure data) = (store', inl cause) ->
  Route.POST Store insert_returning (Some data) store
  = (something_went_wrong,
     [Route.InsertTweet (Route.destructure data)], store') /\
  forall data' store0,
    z.parse Route.postTweetRequestSchema data' = false ->
    fst (fst (Route.POST Store insert_returning (Some data') store0))
    = invalid_request /\
    fst (fst (Route.POST Store insert_returning (Some data') store0))
    <> something_went_wrong.
Proof.
  intros H Hi. split; [eapply POST_failed; eassumption|].
  intros data' store0 H'. rewrite (POST_invalid _ _ _ _ H').
  split; [reflexivity | discriminate].
Qed.

Lemma POST_insert_failure_offline :
  Route.POST Route.MemStore Route.mem_insert
    (Some (payload (JS.ofZ 1) "hi")) store_offline
  = (something_went_wrong,
     [Route.InsertTweet (Route.destructure (payload (JS.ofZ 1) "hi"))],
     store_offline) /\
  fst (fst (Route.POST Route.MemStore Route.mem_insert
              (Some (payload (JS.ofZ 1) "")) store_offline))
  = invalid_request.
Proof.
  destruct (POST_insert_failure Route.MemStore Route.mem_insert
              (payload (JS.ofZ 1) "hi") store_offline store_offline
              "connect ECONNREFUSED" eq_refl eq_refl) as [Hfailed Hinvalid].
  split; [exact Hfailed|].
  apply (Hinvalid (payload (JS.ofZ 1) "") store_offline). reflexivity.
Defined.

(* ================================================================== *)
(** ** The page beyond its error paths *)
(* ================================================================== *)

Lemma TweetPage_renders db tweet_id username userid tweetData rows user users :
  JS.isNaN (JS.parseInt tweet_id) = false ->
  Page.selectTweetData db (JS.parseInt tweet_id) = tweetData :: rows ->
  Page.selectUser db (tweets_userId tweetData) = user :: users ->
  Page.TweetPage db tweet_id username userid
  = (five_queries (JS.parseInt tweet_id) userid (tweets_userId tweetData),
     inr {| Page.tweet :=
              tweet_view db (JS.parseInt tweet_id) userid tweetData user;
            Page.replies :=
              Page.selectReplies db (JS.parseInt tweet_id) userid |}).
Proof.
  intros Hn Ht Hu. run_page. rewrite Hn, Ht. run_page.
  rewrite Hu. reflexivity.
Qed.

Lemma selectLikes_like_rows db z :
  Page.selectLikes db (JS.ofZ z) = map likes_id (like_rows db z).
Proof.
  unfold Page.selectLikes, like_rows. f_equal.
  apply filter_ext. intros l. apply eq_num_ofZ.
Qed.

Lemma selectLiked_viewer_like_rows db z userid :
  Page.selectLiked db (JS.ofZ z) userid
  = map likes_id (viewer_like_rows db userid z).
Proof.
  unfold Page.selectLiked, viewer_like_rows. f_equal.
  apply filter_ext. intros l. rewrite eq_num_ofZ. apply andb_comm.
Qed.

(** X2. The view a page renders for the segment of an integer [z] shows a
    tweet row whose identifier is [z] together with a user row whose
    identifier is that tweet's [userId]: the content, the time window and
    the creation time are the tweet's, the name is that user's, and the
    five queries have been sent. *)
Theorem TweetPage_renders_requested_tweet
  db tweet_id username userid log view z :
  Page.TweetPage db tweet_id username userid = (log, inr view) ->
  JS.parseInt tweet_id = JS.ofZ z ->
  exists t u,
    In t (tweetsTable db) /\ In u (usersTable db) /\
    tweets_id t = z /\ users_id u = tweets_userId t /\
    Page.tweet view = tweet_view db (JS.ofZ z) userid t u /\
    Page.tweet_id (Page.tweet view) = z /\
    Page.tweet_userid (Page.tweet view) = tweets_userId t /\
    log = five_queries (JS.ofZ z) userid (tweets_userId t).
Proof.
  intros Hpage Hz.
  destruct (TweetPage_rendered _ _ _ _ _ _ Hpage)
    as (t & rows & u & users & Ht & Hu & _).
  assert (Hn : JS.isNaN (JS.parseInt tweet_id) = false)
    by (now rewrite Hz).
  rewrite (TweetPage_renders _ _ _ _ _ _ _ _ Hn Ht Hu) in Hpage.
  rewrite Hz in *. inversion Hpage; subst; clear Hpage.
  assert (Hin : In t (Page.selectTweetData db (JS.ofZ z)))
    by (rewrite Ht; now left).
  apply filter_In in Hin as [Hin Hid].
  rewrite eq_num_ofZ in Hid. apply Z.eqb_eq in Hid.
  assert (Huin : In u (Page.selectUser db (tweets_userId t)))
    by (rewrite Hu; now left).
  apply filter_In in Huin as [Huin Huid]. apply Z.eqb_eq in Huid.
  exists t, u. cbn. repeat split; assumption || reflexivity.
Qed.

Lemma TweetPage_renders_requested_tweet_sample :
  exists t u,
    In t (tweetsTable sample) /\ In u (usersTable sample) /\
    tweets_id t = 3 /\ users_id u = tweets_userId t /\
    Page.tweet_username
      (tweet_view sample (JS.ofZ 3) 1 t u) = "bob".
Proof.
  destruct (TweetPage_renders_requested_tweet sample "3" None 1 _ _ 3
              eq_refl eq_refl)
    as (t & u & Ht & Hu & Hid & Huid & Hview & _).
  exists t, u. repeat split; try assumption.
  rewrite <- Hview. reflexivity.
Defined.

(** X3. In a rendered view of tweet [z] the like count is the number of
    like rows of [z], and the viewer-liked flag is set exactly when the
    viewer holds a like row on [z]. *)
Theorem TweetPage_likes_and_liked db tweet_id username userid log view z :
  Page.TweetPage db tweet_id username userid = (log, inr view) ->
  JS.parseInt tweet_id = JS.ofZ z ->
  Page.tweet_likes (Page.tweet view)
  = Z.of_nat (List.length (like_rows db z)) /\
  (Page.tweet_liked (Page.tweet view) = true <->
   viewer_like_rows db userid z <> []).
Proof.
  intros Hpage Hz.
  apply TweetPage_rendered in Hpage
    as (_ & _ & _ & _ & _ & _ & _ & Hlikes & Hliked & _).
  rewrite Hz in *. rewrite Hlikes, Hliked.
  rewrite selectLikes_like_rows, selectLiked_viewer_like_rows, length_map.
  split; [reflexivity|].
  destruct (viewer_like_rows db userid z); cbn; split;
    congruence || discriminate.
Qed.

Lemma TweetPage_likes_and_liked_sample :
  exists log view,
    Page.TweetPage sample "3" None 2 = (log, inr view) /\
    Page.tweet_likes (Page.tweet view) = 2 /\
    Page.tweet_liked (Page.tweet view) = true.
Proof.
  eexists. eexists. split; [reflexivity|].
  destruct (TweetPage_likes_and_liked sample "3" None 2 _ _ 3
              eq_refl eq_refl) as [Hlikes Hliked].
  split; [exact Hlikes|]. apply Hliked. discriminate.
Defined.

(* ================================================================== *)
(** ** The reply rows, column by column *)
(* ================================================================== *)

Lemma In_bump g k groups :
  In g (Sql.bump k groups) -> fst g = k \/ In (fst g) (map fst groups).
Proof.
  induction groups as [|[k' c] groups IH]; cbn [Sql.bump map fst In].
  - intros [<-|F]; [now left | destruct F].
  - destruct (Z.eqb_spec k' k) as [->|Hne]; cbn [In].
    + intros [<-|Hin]; [now left|]. right. right. now apply in_map.
    + intros [<-|Hin]; [right; now left|].
      destruct (IH Hin) as [E|Hin']; [now left | right; now right].
Qed.

Lemma In_group_scan keys : forall groups g,
  In g (fold_left (fun groups k => Sql.bump k groups) keys groups) ->
  In (fst g) keys \/ In (fst g) (map fst groups).
Proof.
  induction keys as [|k keys IH]; intros groups g; cbn [fold_left In].
  - intros Hin. right. now apply in_map.
  - intros Hin. destruct (IH _ _ Hin) as [Hk|Hb]; [left; now right|].
    apply in_map_iff in Hb as (g' & E & Hg').
    destruct (In_bump _ _ _ Hg') as [Ek|Hold].
    + left. left. congruence.
    + right. now rewrite <- E.
Qed.

(** A group exists only for a key that some row carries. *)
Lemma In_group_count keys g :
  In g (Sql.group_count keys) -> In (fst g) keys.
Proof.
  intros Hin. destruct (In_group_scan keys [] g Hin) as [H|F];
    [assumption | destruct F].
Qed.

Lemma like_rows_by_key db id :
  List.length (filter (fun k => k =? id) (map likes_tweetId (likesTable db)))
  = List.length (like_rows db id).
Proof.
  unfold like_rows.
  induction (likesTable db) as [|l likes IH]; cbn [map filter];
    [reflexivity|].
  destruct (likes_tweetId l =? id); cbn [List.length]; now rewrite IH.
Qed.

(** A row of [likes_count] holds the number of like rows of its tweet,
    which is not zero. *)
Lemma likesSubquery_row db g :
  In g (Page.likesSubquery db) ->
  snd g = Z.of_nat (List.length (like_rows db (fst g))) /\
  like_rows db (fst g) <> [].
Proof.
  intros Hg. split.
  - rewrite <- like_rows_by_key.
    rewrite <- (count_for_group_count (map likes_tweetId (likesTable db))).
    fold (Page.likesSubquery db). unfold count_for.
    assert (Hf : In g (filter (fun g' : Z * Z => fst g =? fst g')
                         (Page.likesSubquery db)))
      by (apply filter_In; split; [assumption | apply Z.eqb_refl]).
    pose proof (group_count_one_row (map likes_tweetId (likesTable db))
                  (fst g)) as Hone.
    fold (Page.likesSubquery db) in Hone.
    destruct (filter _ (Page.likesSubquery db)) as [|g0 [|g1 rest]];
      cbn in Hf, Hone.
    + destruct Hf.
    + destruct Hf as [->|[]]. reflexivity.
    + lia.
  - apply In_group_count in Hg.
    apply in_map_iff in Hg as (l & Hk & Hl).
    intros Hnone.
    assert (Hin : In l (like_rows db (fst g)))
      by (apply filter_In; split; [assumption | now apply Z.eqb_eq]).
    rewrite Hnone in Hin. destruct Hin.
Qed.

(** The two joined columns of a row of the [FROM] clause are functions of
    its tweet. *)
Lemma from_tweets_columns db userid tweets t u likes liked :
  In (t, u, likes, liked) (from_tweets db userid tweets) ->
  Page.select_reply (t, u, likes, liked) = reply_row db userid t u.
Proof.
  intros Hrow. apply In_from_tweets in Hrow as (_ & _ & Hl & Hv).
  unfold Page.select_reply, reply_row.
  cbn [Page.joined_tweet Page.joined_user Page.joined_likes
       Page.joined_liked fst snd].
  f_equal.
  - destruct likes as [g|]; cbn [option_map].
    + destruct Hl as [Hg Hk].
      destruct (likesSubquery_row db g Hg) as [Hc Hsome].
      rewrite <- Hk in Hc, Hsome. rewrite Hc.
      destruct (like_rows db (tweets_id t)); [congruence | reflexivity].
    + assert (E : count_for (Page.likesSubquery db) (tweets_id t) = 0)
        by (unfold count_for; now rewrite Hl).
      unfold Page.likesSubquery in E.
      rewrite count_for_group_count, like_rows_by_key in E.
      destruct (like_rows db (tweets_id t)); [reflexivity|].
      cbn [List.length] in E. lia.
  - rewrite likedSubquery_matches in Hv.
    destruct liked as [g|]; cbn [option_map].
    + destruct Hv as [Hg Hk].
      unfold Page.likedSubquery in Hg.
      apply in_map_iff in Hg as (l & <- & Hl').
      apply filter_In in Hl' as [Hl' Hu]. cbn [fst snd] in *.
      assert (Hin : In l (viewer_like_rows db userid (tweets_id t))).
      { apply filter_In. split; [assumption|].
        rewrite Hu. cbn. now apply Z.eqb_eq. }
      destruct (viewer_like_rows db userid (tweets_id t));
        [destruct Hin | reflexivity].
    + destruct (viewer_like_rows db userid (tweets_id t));
        [reflexivity | discriminate].
Qed.

(** Every reply row is the row of a direct reply and one of its author
    rows. *)
Lemma selectReplies_row_shape db tweet_id_num userid r :
  In r (Page.selectReplies db tweet_id_num userid) ->
  exists t u,
    In t (tweetsTable db) /\ is_reply_to tweet_id_num t = true /\
    In u (usersTable db) /\ tweets_userId t = users_id u /\
    r = reply_row db userid t u.
Proof.
  rewrite In_selectReplies.
  intros ([[[t u] likes] liked] & Hrow & ->).
  pose proof (from_tweets_columns _ _ _ _ _ _ _ Hrow) as Hcols.
  apply In_from_tweets in Hrow as (Ht & (Hu & Hid) & _).
  apply filter_In in Ht as [Ht Hr].
  exists t, u. repeat split; assumption.
Qed.

(** X5. The rows of the reply query are exactly the rows that the direct
    replies of the requested tweet give with each of their author rows:
    the tweet's columns, the author's name and identifier, the number of
    like rows of the tweet (NULL for none) and the viewer's mark (NULL
    when the viewer holds no like row on it). *)
Theorem selectReplies_rows db tweet_id_num userid r :
  In r (Page.selectReplies db tweet_id_num userid) <->
  exists t u,
    In t (tweetsTable db) /\ is_reply_to tweet_id_num t = true /\
    In u (usersTable db) /\ tweets_userId t = users_id u /\
    r = reply_row db userid t u.
Proof.
  split; [apply selectReplies_row_shape|].
  rewrite In_selectReplies.
  intros (t & u & Ht & Hr & Hu & Hid & ->).
  {
    set (likes := hd_error (filter (fun g : Z * Z => tweets_id t =? fst g)
                              (Page.likesSubquery db))).
    set (liked := hd_error (filter (fun g : Z * bool => tweets_id t =? fst g)
                              (Page.likedSubquery db userid))).
    assert (Hrow : In (t, u, likes, liked)
                     (from_tweets db userid
                        (filter (is_reply_to tweet_id_num) (tweetsTable db)))).
    { apply In_from_tweets. split; [apply filter_In; now split|].
      split; [now split|]. subst likes liked. split.
      - destruct (filter (fun g : Z * Z => tweets_id t =? fst g)
                    (Page.likesSubquery db)) as [|g rest] eqn:F;
          cbn [hd_error]; [reflexivity|].
        assert (Hg : In g (filter (fun g : Z * Z => tweets_id t =? fst g)
                             (Page.likesSubquery db)))
          by (rewrite F; now left).
        apply filter_In in Hg as [Hg Hk]. now apply Z.eqb_eq in Hk.
      - destruct (filter (fun g : Z * bool => tweets_id t =? fst g)
                    (Page.likedSubquery db userid)) as [|g rest] eqn:F;
          cbn [hd_error]; [reflexivity|].
        assert (Hg : In g (filter (fun g : Z * bool => tweets_id t =? fst g)
                             (Page.likedSubquery db userid)))
          by (rewrite F; now left).
        apply filter_In in Hg as [Hg Hk]. now apply Z.eqb_eq in Hk. }
    exists (t, u, likes, liked). split; [assumption|].
    symmetry. eapply from_tweets_columns, Hrow. }
Qed.

Lemma selectReplies_rows_sample :
  In (reply_row sample 2 (row_tweet 3 2 "second" (Some 1) 300)
        (row_user 2 "bob"))
    (Page.selectReplies sample (JS.ofZ 1) 2).
Proof.
  apply (selectReplies_rows sample (JS.ofZ 1) 2).
  exists (row_tweet 3 2 "second" (Some 1) 300), (row_user 2 "bob").
  repeat split; try reflexivity; cbn; tauto.
Defined.

(** X4. In every reply row the [likes] column is absent exactly when the
    tweet has no like row and otherwise holds their number, at least 1
    (never 0); the [liked] column is [true] exactly when the viewer holds a
    like row on the tweet and otherwise absent (never [false]). *)
Theorem reply_columns_likes_liked db tweet_id_num userid r :
  In r (Page.selectReplies db tweet_id_num userid) ->
  (Page.reply_likes r = None <-> like_rows db (Page.reply_id r) = []) /\
  (forall likes, Page.reply_likes r = Some likes ->
     likes = Z.of_nat (List.length (like_rows db (Page.reply_id r))) /\
     1 <= likes) /\
  (Page.reply_liked r = Some true <->
   viewer_like_rows db userid (Page.reply_id r) <> []) /\
  (Page.reply_liked r = None <->
   viewer_like_rows db userid (Page.reply_id r) = []) /\
  Page.reply_liked r <> Some false.
Proof.
  intros Hr. apply selectReplies_row_shape in Hr as (t & u & _ & _ & _ & _ & ->).
  cbn [reply_row Page.reply_likes Page.reply_liked Page.reply_id].
  destruct (like_rows db (tweets_id t)) as [|l likes];
    destruct (viewer_like_rows db userid (tweets_id t)) as [|v vs];
    repeat split; intros; try discriminate; try congruence;
    try (inversion H; subst; cbn [List.length]; lia).
Qed.

Lemma reply_columns_likes_liked_sample :
  like_rows sample 2 = [] /\ viewer_like_rows sample 2 3 <> [].
Proof.
  split.
  - apply (reply_columns_likes_liked sample (JS.ofZ 1) 2
             (reply_row sample 2 (row_tweet 2 2 "first" (Some 1) 200)
                (row_user 2 "bob"))).
    + cbn. tauto.
    + reflexivity.
  - apply (reply_columns_likes_liked sample (JS.ofZ 1) 2
             (reply_row sample 2 (row_tweet 3 2 "second" (Some 1) 300)
                (row_user 2 "bob"))).
    + cbn. tauto.
    + reflexivity.
Defined.

(* ================================================================== *)
(** ** How many rows the reply query returns *)
(* ================================================================== *)

Lemma length_pad_left {A B} (a : A) (matches : list B) :
  List.length (Sql.pad_left a matches) = Nat.max 1 (List.length matches).
Proof.
  destruct matches as [|b rest]; cbn [Sql.pad_left]; [reflexivity|].
  rewrite length_map. cbn [List.length]. lia.
Qed.

Lemma length_flat_map_const {A B} (f : A -> list B) (k : nat) (l : list A) :
  (forall a, In a l -> List.length (f a) = k) ->
  List.length (flat_map f l) = (List.length l * k)%nat.
Proof.
  induction l as [|a l IH]; intros H; cbn [flat_map List.length];
    [reflexivity|].
  rewrite length_app, IH by (intros; apply H; now right).
  rewrite (H a) by now left. lia.
Qed.

Lemma from_tweets_cons db userid t tweets :
  from_tweets db userid (t :: tweets)
  = from_tweets db userid [t] ++ from_tweets db userid tweets.
Proof.
  unfold from_tweets, Sql.left_join, Sql.inner_join.
  cbn [flat_map]. rewrite app_nil_r. now rewrite !flat_map_app.
Qed.

(** The rows one tweet contributes to the [FROM] clause. *)
Lemma length_from_tweets_one db userid t :
  List.length (from_tweets db userid [t]) = rows_of_reply db userid t.
Proof.
  unfold from_tweets, rows_of_reply, Page.Joined.
  set (J1 := Sql.inner_join _ [t] (usersTable db)).
  set (J2 := Sql.left_join _ J1 (Page.likesSubquery db)).
  assert (H1 : J1 = map (pair t) (author_rows db t)).
  { subst J1. unfold Sql.inner_join. cbn [flat_map]. apply app_nil_r. }
  assert (H2 : forall x, In x J2 -> fst (fst x) = t).
  { intros [[t' u] likes] Hx. subst J2.
    apply In_left_join in Hx as [Hx _]. rewrite H1 in Hx.
    apply in_map_iff in Hx as (u' & E & _). now inversion E. }
  assert (L2 : List.length J2 = List.length (author_rows db t)).
  { subst J2. unfold Sql.left_join.
    rewrite (length_flat_map_const _ 1%nat).
    - rewrite H1, length_map. lia.
    - intros a _. cbv beta. rewrite length_pad_left.
      pose proof (group_count_one_row (map likes_tweetId (likesTable db))
                    (tweets_id (fst a))) as Hone.
      fold (Page.likesSubquery db) in Hone. lia. }
  unfold Sql.left_join at 1.
  rewrite (length_flat_map_const _
             (Nat.max 1 (List.length
                           (viewer_like_rows db userid (tweets_id t))))).
  - now rewrite L2.
  - intros x Hx. cbv beta. rewrite length_pad_left, (H2 x Hx).
    now rewrite likedSubquery_matches, length_map.
Qed.

Lemma length_from_tweets db userid tweets :
  List.length (from_tweets db userid tweets)
  = list_sum (map (rows_of_reply db userid) tweets).
Proof.
  induction tweets as [|t tweets IH]; [reflexivity|].
  rewrite from_tweets_cons, length_app, length_from_tweets_one, IH.
  reflexivity.
Qed.

(** X6. Whatever the tables hold, the reply query returns, for each direct
    reply of the requested tweet, one row per author row times one row
    per like row of the viewer on it (one when the viewer has none): a
    reply without author row gives no row, a reply the viewer liked twice
    gives two. *)
Theorem selectReplies_row_count db tweet_id_num userid :
  List.length (Page.selectReplies db tweet_id_num userid)
  = list_sum
      (map (rows_of_reply db userid)
         (filter (is_reply_to tweet_id_num) (tweetsTable db))).
Proof.
  rewrite selectReplies_from_tweets, length_map, from_tweets_where.
  rewrite (Permutation_length (order_by_asc_perm _ _)).
  apply length_from_tweets.
Qed.

(** X7. When tweet identifiers are unique, every direct reply has exactly
    one author row and the viewer holds at most one like row on each, the
    [key]s of the [Tweet] elements the page renders for the replies are
    pairwise distinct, and there is one element per reply row, in the
    order of the rows. *)
Theorem Tweets_keys_distinct db tweet_id_num username userid :
  NoDup (map tweets_id (tweetsTable db)) ->
  (forall t, In t (tweetsTable db) -> is_reply_to tweet_id_num t = true ->
     List.length (author_rows db t) = 1%nat /\
     (List.length (viewer_like_rows db userid (tweets_id t)) <= 1)%nat) ->
  let elements :=
    Jsx.Tweets username userid (Page.selectReplies db tweet_id_num userid) in
  NoDup (map Jsx.key elements) /\
  map Jsx.id elements
  = map Page.reply_id (Page.selectReplies db tweet_id_num userid).
Proof.
  intros Hids H elements. subst elements.
  assert (Hkey : forall rows,
            map Jsx.key (Jsx.Tweets username userid rows)
            = map Page.reply_id rows)
    by (intros; unfold Jsx.Tweets; rewrite map_map; now apply map_ext).
  assert (Hid : forall rows,
            map Jsx.id (Jsx.Tweets username userid rows)
            = map Page.reply_id rows)
    by (intros; unfold Jsx.Tweets; rewrite map_map; now apply map_ext).
  rewrite Hkey, Hid. split; [|reflexivity].
  assert (E : map Page.reply_id (Page.selectReplies db tweet_id_num userid)
              = map (fun c : Z * string * option Z * Z => fst (fst (fst c)))
                  (map reply_columns
                     (Page.selectReplies db tweet_id_num userid)))
    by (now rewrite map_map).
  rewrite E, (selectReplies_columns db userid tweet_id_num H), map_map.
  cbn [tweet_columns fst].
  eapply Permutation_NoDup.
  - apply Permutation_map, Permutation_sym, order_by_asc_perm.
  - now apply distinct_ids_selected.
Qed.

Lemma Tweets_keys_distinct_sample :
  NoDup (map Jsx.key
           (Jsx.Tweets (Some "amy") 2
              (Page.selectReplies sample (JS.ofZ 1) 2))).
Proof.
  apply (Tweets_keys_distinct sample (JS.ofZ 1) (Some "amy") 2).
  - cbn. repeat constructor; cbn; intuition congruence.
  - intros t Hin _. cbn in Hin.
    repeat (destruct Hin as [<-|Hin]); try contradiction;
      split; cbn; lia.
Defined.

(** X8. The like count and the viewer-liked flag that a thread shows for
    one of its replies are those the reply's own page shows for it: the
    count of the reply row is the page's count (absent for 0), and its
    mark is present exactly when the page's flag is set. *)
Theorem reply_row_agrees_with_own_page
  db tweet_id_num userid r tweet_id username log view :
  In r (Page.selectReplies db tweet_id_num userid) ->
  JS.parseInt tweet_id = JS.ofZ (Page.reply_id r) ->
  Page.TweetPage db tweet_id username userid = (log, inr view) ->
  Page.tweet_likes (Page.tweet view)
  = match Page.reply_likes r with
    | Some likes => likes
    | None => 0
    end /\
  Page.tweet_liked (Page.tweet view)
  = match Page.reply_liked r with
    | Some liked => liked
    | None => false
    end.
Proof.
  intros Hr Hz Hpage.
  apply TweetPage_rendered in Hpage
    as (_ & _ & _ & _ & _ & _ & _ & Hlikes & Hliked & _).
  rewrite Hz in *. rewrite Hlikes, Hliked.
  rewrite selectLikes_like_rows, selectLiked_viewer_like_rows, length_map.
  apply selectReplies_row_shape in Hr as (t & u & _ & _ & _ & _ & ->).
  cbn [reply_row Page.reply_likes Page.reply_liked Page.reply_id].
  destruct (like_rows db (tweets_id t));
    destruct (viewer_like_rows db userid (tweets_id t)); split; reflexivity.
Qed.

Lemma reply_row_agrees_with_own_page_sample :
  exists log view,
    Page.TweetPage sample "3" (Some "bob") 2 = (log, inr view) /\
    Page.tweet_likes (Page.tweet view) = 2 /\
    Page.tweet_liked (Page.tweet view) = true.
Proof.
  eexists. eexists. split; [reflexivity|].
  assert (Hr : In (reply_row sample 2 (row_tweet 3 2 "second" (Some 1) 300)
                     (row_user 2 "bob"))
                 (Page.selectReplies sample (JS.ofZ 1) 2))
    by (cbn; tauto).
  apply (reply_row_agrees_with_own_page sample (JS.ofZ 1) 2 _
           "3" (Some "bob") _ _ Hr eq_refl eq_refl).
Defined.

(* ================================================================== *)
(** ** The grouped subquery *)
(* ================================================================== *)

Lemma NoDup_bump k groups :
  NoDup (map fst groups) -> NoDup (map fst (Sql.bump k groups)).
Proof.
  induction groups as [|[k' c] groups IH]; cbn [Sql.bump map fst];
    intros Hnd.
  - repeat constructor. intros F; destruct F.
  - apply NoDup_cons_iff in Hnd as [Hfresh Hnd].
    destruct (Z.eqb_spec k' k) as [->|Hne]; cbn [map fst].
    + now apply NoDup_cons_iff.
    + apply NoDup_cons_iff. split; [|now apply IH].
      intros Hin. apply in_map_iff in Hin as (g & Hg & Hin).
      destruct (In_bump _ _ _ Hin) as [E|Hold]; [congruence|].
      now rewrite Hg in Hold.
Qed.

Lemma NoDup_group_scan keys : forall groups,
  NoDup (map fst groups) ->
  NoDup (map fst (fold_left (fun groups k => Sql.bump k groups) keys groups)).
Proof.
  induction keys as [|k keys IH]; intros groups Hnd; cbn [fold_left];
    [assumption|].
  now apply IH, NoDup_bump.
Qed.

Lemma total_bump k groups :
  fold_right Z.add 0 (map snd (Sql.bump k groups))
  = fold_right Z.add 0 (map snd groups) + 1.
Proof.
  induction groups as [|[k' c] groups IH]; cbn [Sql.bump map snd fold_right];
    [lia|].
  destruct (k' =? k); cbn [map snd fold_right]; [lia|].
  rewrite IH. lia.
Qed.

Lemma total_group_scan keys : forall groups,
  fold_right Z.add 0
    (map snd (fold_left (fun groups k => Sql.bump k groups) keys groups))
  = fold_right Z.add 0 (map snd groups) + Z.of_nat (List.length keys).
Proof.
  induction keys as [|k keys IH]; intros groups; cbn [fold_left List.length].
  - lia.
  - rewrite IH, total_bump. lia.
Qed.

(** X9. The grouped subquery [likes_count] holds one row per tweet that
    has like rows and none for the others; the row of a tweet holds the
    number of its like rows, at least 1; and the counts add up to the size
    of the likes table. *)
Theorem likesSubquery_groups db :
  NoDup (map fst (Page.likesSubquery db)) /\
  (forall k, In k (map fst (Page.likesSubquery db)) <->
             like_rows db k <> []) /\
  (forall k likes, In (k, likes) (Page.likesSubquery db) ->
     likes = Z.of_nat (List.length (like_rows db k)) /\ 1 <= likes) /\
  fold_right Z.add 0 (map snd (Page.likesSubquery db))
  = Z.of_nat (List.length (likesTable db)).
Proof.
  split; [|split; [|split]].
  - apply NoDup_group_scan. constructor.
  - intros k. split.
    + intros Hin. apply in_map_iff in Hin as (g & <- & Hg).
      now apply likesSubquery_row.
    + intros Hsome.
      pose proof (count_for_group_count
                    (map likes_tweetId (likesTable db)) k) as Hc.
      fold (Page.likesSubquery db) in Hc.
      rewrite like_rows_by_key in Hc. unfold count_for in Hc.
      destruct (filter (fun g : Z * Z => k =? fst g) (Page.likesSubquery db))
        as [|g rest] eqn:F.
      * destruct (like_rows db k); [congruence | cbn in Hc; lia].
      * assert (Hg : In g (filter (fun g : Z * Z => k =? fst g)
                             (Page.likesSubquery db)))
          by (rewrite F; now left).
        apply filter_In in Hg as [Hg Hk]. apply Z.eqb_eq in Hk.
        apply in_map_iff. exists g. split; [now symmetry | assumption].
  - intros k likes Hin.
    destruct (likesSubquery_row db (k, likes) Hin) as [Hc Hsome].
    cbn [fst snd] in *. split; [assumption|].
    destruct (like_rows db k); [congruence | cbn in Hc; lia].
  - unfold Page.likesSubquery, Sql.group_count.
    rewrite total_group_scan, length_map. reflexivity.
Qed.

(* ================================================================== *)
(** ** The viewer identifier handed to [LikeButton] *)
(* ================================================================== *)

Lemma digit_char_code d :
  0 <= d <= 9 -> Z.of_N (N_of_ascii (digit_char d)) = 48 + d.
Proof.
  intros Hd. unfold digit_char.
  rewrite N_ascii_embedding by lia. lia.
Qed.

Lemma all_decimal_app s1 s2 :
  all_decimal (s1 ++ s2)%string = all_decimal s1 && all_decimal s2.
Proof.
  induction s1 as [|c s1 IH]; cbn [String.append all_decimal];
    [reflexivity|].
  now rewrite IH, andb_assoc.
Qed.

Lemma decimal_from_app s1 s2 : forall acc,
  decimal_from acc (s1 ++ s2)%string = decimal_from (decimal_from acc s1) s2.
Proof.
  induction s1 as [|c s1 IH]; intros acc; cbn [String.append decimal_from];
    [reflexivity|].
  apply IH.
Qed.

Lemma decimal_digits_last fuel n :
  decimal_digits (S fuel) n
  = String.append
      (if n <? 10 then ""%string else decimal_digits fuel (n / 10))
      (String (digit_char (n mod 10)) "").
Proof. reflexivity. Qed.

(** The digits written for [n] are decimal digits, at least one, and
    denote [n]. *)
Lemma decimal_digits_value fuel : forall n,
  0 <= n < 10 ^ Z.of_nat (S fuel) ->
  all_decimal (decimal_digits (S fuel) n) = true /\
  decimal_value (decimal_digits (S fuel) n) = n /\
  decimal_digits (S fuel) n <> ""%string.
Proof.
  assert (Hlast : forall d, 0 <= d <= 9 ->
            is_decimal_digit (digit_char d) = true).
  { intros d Hd. unfold is_decimal_digit.
    rewrite digit_char_code by assumption.
    apply andb_true_iff. split; apply Z.leb_le; lia. }
  assert (Hne : forall front c,
            (front ++ String c "")%string <> ""%string)
    by (intros [|c' front] c; discriminate).
  induction fuel as [|fuel IH]; intros n Hn.
  - change (10 ^ Z.of_nat 1) with 10 in Hn.
    cbn [decimal_digits]. destruct (Z.ltb_spec n 10); [|lia].
    cbn [String.append]. unfold decimal_value.
    cbn [all_decimal decimal_from].
    rewrite Z.mod_small by lia.
    rewrite Hlast, digit_char_code by lia.
    repeat split; [lia | discriminate].
  - pose proof (decimal_digits_last (S fuel) n) as E.
    set (front := if n <? 10 then ""%string
                  else decimal_digits (S fuel) (n / 10)) in E.
    assert (Hfront : front = if n <? 10 then ""%string
                             else decimal_digits (S fuel) (n / 10))
      by reflexivity.
    clearbody front.
    assert (Hmod : 0 <= n mod 10 <= 9)
      by (pose proof (Z.mod_pos_bound n 10); lia).
    rewrite E. unfold decimal_value.
    rewrite all_decimal_app, decimal_from_app.
    cbn [all_decimal decimal_from].
    rewrite Hlast, digit_char_code by assumption.
    split; [|split; [|apply Hne]].
    + rewrite andb_true_r. subst front.
      destruct (Z.ltb_spec n 10); [reflexivity|].
      apply IH. split; [apply Z.div_pos; lia|].
      apply Z.div_lt_upper_bound; [lia|].
      rewrite Nat2Z.inj_succ, Z.pow_succ_r in Hn by lia. lia.
    + subst front. destruct (Z.ltb_spec n 10).
      * cbn [decimal_from]. rewrite Z.mod_small by lia. lia.
      * assert (Hq : 0 <= n / 10 < 10 ^ Z.of_nat (S fuel)).
        { split; [apply Z.div_pos; lia|].
          apply Z.div_lt_upper_bound; [lia|].
          rewrite Nat2Z.inj_succ, Z.pow_succ_r in Hn by lia. lia. }
        destruct (IH _ Hq) as (_ & Hv & _).
        unfold decimal_value in Hv. rewrite Hv.
        pose proof (Z.div_mod n 10). lia.
Qed.

Lemma enough_digits n :
  0 <= n -> n < 10 ^ Z.of_nat (S (Z.to_nat (Z.log2 n))).
Proof.
  intros Hn. rewrite Nat2Z.inj_succ, Z2Nat.id by apply Z.log2_nonneg.
  destruct (Z.eq_dec n 0) as [->|Hpos].
  - cbn. lia.
  - pose proof (Z.log2_spec n ltac:(lia)) as [_ Hlt].
    pose proof (Z.log2_nonneg n).
    eapply Z.lt_le_trans; [exact Hlt|].
    apply Z.pow_le_mono_l. lia.
Qed.

(** Writing an integer in decimal and reading it back with [parseInt]
    yields its Number value. *)
Lemma parseInt_Number_toString z :
  JS.parseInt (Number_toString z) = JS.roundInt z.
Proof.
  unfold Number_toString. cbv zeta.
  destruct (decimal_digits_value (Z.to_nat (Z.log2 (Z.abs z))) (Z.abs z))
    as (Hall & Hval & Hne).
  { split; [lia | apply enough_digits; lia]. }
  set (digits := decimal_digits _ (Z.abs z)) in *.
  assert (Hhex : JS.hasHexPrefix (digits ++ "")%string = false)
    by (rewrite append_empty_r; now apply hasHexPrefix_decimal).
  destruct (Z.ltb_spec z 0).
  - change (String "-" digits) with ("-" ++ digits)%string.
    rewrite <- (append_empty_r digits).
    rewrite parseInt_leading_decimal;
      [| cbn; tauto | assumption | assumption | reflexivity | assumption].
    rewrite Hval. change (sign_value "-") with (-1). f_equal. lia.
  - change digits with ("" ++ digits)%string.
    rewrite <- (append_empty_r digits).
    rewrite parseInt_leading_decimal;
      [| cbn; tauto | assumption | assumption | reflexivity | assumption].
    rewrite Hval. change (sign_value "") with 1. f_equal. lia.
Qed.

(** X10. The [userId] the page hands to [LikeButton], obtained by writing
    the viewer identifier in decimal and parsing it back, is the viewer
    identifier itself for every integer of magnitude below 2^53; the
    button's tweet and initial state are those of the view. *)
Theorem LikeButton_userId userid tweet :
  Z.abs userid < 2 ^ 53 ->
  Jsx.LikeButton userid tweet
  = {| Jsx.userId := JS.ofZ userid;
       Jsx.initialLiked := Page.tweet_liked tweet;
       Jsx.tweetId := Page.tweet_id tweet |}.
Proof.
  intros Hsmall. unfold Jsx.LikeButton.
  now rewrite parseInt_Number_toString, roundInt_exact.
Qed.

Lemma LikeButton_userId_sample :
  Number_toString (-1207) = "-1207" /\
  Jsx.userId (Jsx.LikeButton (-1207)
                (tweet_view sample (JS.ofZ 1) (-1207)
                   (row_tweet 1 1 "hello" None 100) (row_user 1 "amy")))
  = JS.ofZ (-1207).
Proof.
  split; [reflexivity|].
  rewrite (LikeButton_userId (-1207)); [reflexivity|].
  cbn. lia.
Defined.

(* ================================================================== *)
(** ** [ProfileButton] *)
(* ================================================================== *)

(** X11. The event dialog starts closed, and after any sequence of clicks
    on the button and closings of the dialog it is open exactly when the
    last of them was a click: nothing earlier matters, and clicking an
    open dialog's button leaves it open. *)
Theorem ProfileButton_open_after_last_event :
  ProfileButton.openEventDialog [] = false /\
  forall events e,
    ProfileButton.openEventDialog (events ++ [e])
    = match e with
      | ProfileButton.onClick => true
      | ProfileButton.onClose => false
      end.
Proof.
  split; [reflexivity|]. intros events e.
  unfold ProfileButton.openEventDialog. rewrite fold_left_app.
  destruct e; reflexivity.
Qed.

(* ================================================================== *)
(** ** The handler, whatever the request *)
(* ================================================================== *)

(** The schema reads the body through its five keys only. *)
Lemma parse_by_keys data :
  z.parse Route.postTweetRequestSchema data
  = z.number (Json.get data "userId")
    && (z.max 280 (z.min 1 z.string) (Json.get data "content")
        && (z.optional z.number (Json.get data "timestart")
            && (z.optional z.number (Json.get data "timeend")
                && (z.optional (z.positive z.number)
                      (Json.get data "replyToTweetId") && true)))).
Proof. destruct data; reflexivity. Qed.

Section HandlerOutcomes.
Variable Store : Type.
Variable insert_returning :
  Store -> Route.Values -> Store * (string + list Z).

(** The handler sends nothing for a body it cannot read or that fails the
    schema, and one insert otherwise. *)
Lemma POST_operations_cases request store :
  (operations (Route.POST Store insert_returning request store) = [] /\
   store_after (Route.POST Store insert_returning request store) = store /\
   (request = None \/
    exists data, request = Some data /\
      z.parse Route.postTweetRequestSchema data = false)) \/
  (exists data,
     request = Some data /\
     z.parse Route.postTweetRequestSchema data = true /\
     operations (Route.POST Store insert_returning request store)
     = [Route.InsertTweet (Route.destructure data)] /\
     store_after (Route.POST Store insert_returning request store)
     = fst (insert_returning store (Route.destructure data))).
Proof.
  destruct request as [data|].
  - destruct (z.parse Route.postTweetRequestSchema data) eqn:Hp.
    + right. exists data. split; [reflexivity|]. split; [assumption|].
      destruct (insert_returning store (Route.destructure data))
        as [store' [cause|tweetid]] eqn:Hi.
      * now rewrite (POST_failed _ _ _ _ _ _ Hp Hi).
      * now rewrite (POST_inserted _ _ _ _ _ _ Hp Hi).
    + left. rewrite (POST_invalid _ _ _ _ Hp).
      split; [reflexivity|]. split; [reflexivity|].
      right. exists data. now split.
  - left. cbn. auto.
Qed.
End HandlerOutcomes.

(** X12. Whatever the request and the store, the handler sends at most
    one operation; it sends none exactly when the body cannot be read or
    fails the schema, and then the store is left as it was; and the status
    of an answer is 200, 400 or 500. *)
Theorem POST_at_most_one_insert Store insert_returning request store :
  let result := Route.POST Store insert_returning request store in
  (List.length (operations result) <= 1)%nat /\
  (operations result = [] <->
   request = None \/
   exists data, request = Some data /\
     z.parse Route.postTweetRequestSchema data = false) /\
  (operations result = [] -> store_after result = store) /\
  (forall response, outcome result = Route.Responded response ->
     In (Route.status response) [200; 400; 500]).
Proof.
  intros result. subst result.
  destruct (POST_operations_cases Store insert_returning request store)
    as [(Hops & Hstore & Hwhy)|(data & -> & Hp & Hops & Hstore)].
  - rewrite Hops. repeat split; auto.
    intros response Hr.
    destruct Hwhy as [->|(data & -> & Hp)].
    + discriminate.
    + rewrite (POST_invalid _ _ _ _ Hp) in Hr.
      inversion Hr; subst. cbn. tauto.
  - rewrite Hops. split; [cbn; lia|]. split; [|split].
    + split; [discriminate|].
      intros [F|(data' & E & Hp')]; [discriminate|].
      inversion E; subst. congruence.
    + discriminate.
    + intros response Hr.
      destruct (insert_returning store (Route.destructure data))
        as [store' [cause|tweetid]] eqn:Hi.
      * rewrite (POST_failed _ _ _ _ _ _ Hp Hi) in Hr.
        inversion Hr; subst. cbn. tauto.
      * rewrite (POST_inserted _ _ _ _ _ _ Hp Hi) in Hr.
        inversion Hr; subst. cbn. tauto.
Qed.

Lemma POST_at_most_one_insert_sample :
  store_after
    (Route.POST Route.MemStore Route.mem_insert
       (Some (payload (JS.ofZ 1) "")) store_online) = store_online /\
  store_after
    (Route.POST Route.MemStore Route.mem_insert None store_online)
  = store_online.
Proof.
  split.
  - apply (POST_at_most_one_insert Route.MemStore Route.mem_insert
             (Some (payload (JS.ofZ 1) "")) store_online).
    reflexivity.
  - apply (POST_at_most_one_insert Route.MemStore Route.mem_insert
             None store_online).
    reflexivity.
Defined.

(** X13. The handler reads a body through the five keys of the schema
    only: two bodies that agree on [userId], [content], [timestart],
    [timeend] and [replyToTweetId] get the same answer, the same insert
    and the same store, whatever other keys they carry. *)
Theorem POST_reads_shape_keys_only
  Store insert_returning data1 data2 store :
  (forall k, In k shape_keys -> Json.get data1 k = Json.get data2 k) ->
  Route.POST Store insert_returning (Some data1) store
  = Route.POST Store insert_returning (Some data2) store.
Proof.
  intros H.
  assert (Hu := H "userId" ltac:(cbn; tauto)).
  assert (Hc := H "content" ltac:(cbn; tauto)).
  assert (Hs := H "timestart" ltac:(cbn; tauto)).
  assert (He := H "timeend" ltac:(cbn; tauto)).
  assert (Hr := H "replyToTweetId" ltac:(cbn; tauto)).
  unfold Route.POST.
  rewrite (parse_by_keys data1), (parse_by_keys data2).
  unfold Route.destructure.
  now rewrite Hu, Hc, Hs, He, Hr.
Qed.

Lemma POST_reads_shape_keys_only_sample :
  Route.POST Route.MemStore Route.mem_insert
    (Some (Json.Object [("id", Json.Number (JS.ofZ 1));
                        ("userId", Json.Number (JS.ofZ 2));
                        ("createdAt", Json.Number (JS.ofZ 0));
                        ("content", Json.Str "hi")])) store_online
  = Route.POST Route.MemStore Route.mem_insert
      (Some (payload (JS.ofZ 2) "hi")) store_online.
Proof.
  apply POST_reads_shape_keys_only.
  intros k Hk. cbn in Hk.
  repeat (destruct Hk as [<-|Hk]); try contradiction; reflexivity.
Defined.

(** X14. Every insert the handler sends, whatever the request, carries
    values that went through the schema: [userId] a number, [content] a
    string of 1 to 280 code units, [timestart] and [timeend] absent or
    numbers, [replyToTweetId] absent or a positive number. *)
Theorem POST_inserts_validated_values
  Store insert_returning request store values :
  In (Route.InsertTweet values)
    (operations (Route.POST Store insert_returning request store)) ->
  validated values.
Proof.
  intros Hin.
  destruct (POST_operations_cases Store insert_returning request store)
    as [(Hops & _)|(data & -> & Hp & Hops & _)];
    rewrite Hops in Hin; [destruct Hin|].
  destruct Hin as [E|[]]. inversion E; subst values.
  apply parse_accepted in Hp as (_ & Hu & Hc & Hs & He & Hr).
  unfold validated. cbn [Route.destructure Route.userId Route.content
                         Route.timestart Route.timeend Route.replyToTweetId].
  tauto.
Qed.

Lemma POST_inserts_validated_values_sample :
  validated (Route.destructure (payload (JS.ofZ 1) "hi")).
Proof.
  apply (POST_inserts_validated_values Route.MemStore Route.mem_insert
           (Some (payload (JS.ofZ 1) "hi")) store_online).
  cbn. now left.
Defined.

(** X15. The handler keeps no trace of the bodies it has seen: a valid
    body sent a second time, to the store the first call left, is inserted
    again with the same values. *)
Theorem POST_resubmission Store insert_returning data store :
  z.parse Route.postTweetRequestSchema data = true ->
  let first := Route.POST Store insert_returning (Some data) store in
  let second :=
    Route.POST Store insert_returning (Some data) (store_after first) in
  operations first ++ operations second
  = [Route.InsertTweet (Route.destructure data);
     Route.InsertTweet (Route.destructure data)] /\
  store_after second
  = fst (insert_returning
           (fst (insert_returning store (Route.destructure data)))
           (Route.destructure data)).
Proof.
  intros Hp first second. subst first second.
  destruct (POST_operations_cases Store insert_returning (Some data) store)
    as [(_ & _ & [F|(d & E & Hq)])|(d & E & _ & Hops & Hstore)];
    try discriminate; inversion E; subst d; [congruence|].
  rewrite Hops, Hstore.
  destruct (POST_operations_cases Store insert_returning (Some data)
              (fst (insert_returning store (Route.destructure data))))
    as [(_ & _ & [F|(d & E' & Hq)])|(d & E' & _ & Hops' & Hstore')];
    try discriminate; inversion E'; subst d; [congruence|].
  now rewrite Hops', Hstore'.
Qed.

Lemma POST_resubmission_sample :
  Route.inserted
    (store_after
       (Route.POST Route.MemStore Route.mem_insert
          (Some (payload (JS.ofZ 1) "hi"))
          (store_after
             (Route.POST Route.MemStore Route.mem_insert
                (Some (payload (JS.ofZ 1) "hi")) store_online))))
  = [(5, Route.destructure (payload (JS.ofZ 1) "hi"));
     (6, Route.destructure (payload (JS.ofZ 1) "hi"))].
Proof.
  destruct (POST_resubmission Route.MemStore Route.mem_insert
              (payload (JS.ofZ 1) "hi") store_online eq_refl)
    as [_ Hstore].
  rewrite Hstore. reflexivity.
Defined.

Lemma likesSubquery_groups_sample :
  In 3 (map fst (Page.likesSubquery sample)) /\
  ~ In 2 (map fst (Page.likesSubquery sample)).
Proof.
  destruct (likesSubquery_groups sample) as (_ & Hkeys & _).
  split.
  - apply Hkeys. discriminate.
  - intros Hin. apply Hkeys in Hin. now apply Hin.
Defined.

(** X16. A path segment whose first character is neither white space, a
    sign nor a decimal digit (a letter, say, whatever follows it, digits
    included) is redirected to the root path without any query. *)
Theorem TweetPage_redirects_non_digit_start db c rest username userid :
  JS.isStrWhiteSpaceChar c = false ->
  Ascii.eqb c "+" = false ->
  Ascii.eqb c "-" = false ->
  is_decimal_digit c = false ->
  JS.parseInt (String c rest) = JS.NaN /\
  Page.TweetPage db (String c rest) username userid
  = ([], inl (Page.Redirected (home username))).
Proof.
  intros Hws Hplus Hminus Hdigit.
  assert (Hnan : JS.parseInt (String c rest) = JS.NaN).
  { unfold JS.parseInt. cbn [JS.trimStart]. rewrite Hws.
    cbn [JS.startsWith]. rewrite Hplus, Hminus. cbn [orb].
    assert (Hhex : JS.hasHexPrefix (String c rest) = false).
    { unfold JS.hasHexPrefix. cbn [JS.startsWith].
      destruct (Ascii.eqb_spec c "0") as [->|_]; [discriminate|].
      reflexivity. }
    rewrite Hhex. cbn [JS.digitsPrefix].
    now rewrite other_char_radix10. }
  split; [exact Hnan|].
  run_page. rewrite Hnan. cbn [JS.isNaN]. unfold home.
  now rewrite errorRedirect_home.
Qed.

Lemma TweetPage_redirects_non_digit_start_sample :
  Page.TweetPage sample "t12" (Some "amy") 2
  = ([], inl (Page.Redirected (home (Some "amy")))).
Proof.
  apply (TweetPage_redirects_non_digit_start sample "t" "12" (Some "amy") 2);
    reflexivity.
Defined.

(** X17. An optional key may be left out but not set to [null]: a body
    whose [timestart], [timeend] or [replyToTweetId] is [null], or whose
    [replyToTweetId] is a number that is not positive, is answered with
    status 400 and nothing is inserted. *)
Theorem POST_rejects_null_and_non_positive
  Store insert_returning data store :
  Json.get data "timestart" = Some Json.Null \/
  Json.get data "timeend" = Some Json.Null \/
  Json.get data "replyToTweetId" = Some Json.Null \/
  (exists n, Json.get data "replyToTweetId" = Some (Json.Number n) /\
             JS.positive n = false) ->
  Route.POST Store insert_returning (Some data) store
  = (invalid_request, [], store).
Proof.
  intros H. apply POST_invalid. rewrite parse_by_keys.
  destruct H as [E|[E|[E|(n & E & Hn)]]]; rewrite E.
  - cbn. now rewrite !andb_false_r.
  - cbn. now rewrite !andb_false_r.
  - cbn. now rewrite !andb_false_r.
  - unfold z.optional at 3. unfold z.positive. rewrite Hn.
    now rewrite !andb_false_r.
Qed.

Lemma POST_rejects_null_and_non_positive_sample :
  Route.POST Route.MemStore Route.mem_insert
    (Some (Json.Object [("userId", Json.Number (JS.ofZ 1));
                        ("content", Json.Str "hi");
                        ("replyToTweetId", Json.Number (JS.ofZ 0))]))
    store_online
  = (invalid_request, [], store_online).
Proof.
  apply POST_rejects_null_and_non_positive.
  right. right. right. exists (JS.ofZ 0). split; reflexivity.
Defined.
